(** * mcp-apple-notes: the indexing pipeline, the provisioner and the
      hybrid search merge of [src/index.ts], embedded in Rocq.

    The embedding follows the TypeScript source function by function.
    JavaScript values that may be [undefined] are [option]s, exceptions
    are a [Result], promises are a [Promise] whose settled state is
    known, and the storage engine is an explicit store that is threaded
    through the calls and that records every call made on it. *)

From Stdlib Require Import Ascii String DecimalNat DecimalString.
From stdpp Require Import base option list strings gmap.

Local Open Scope string_scope.

(** ** JavaScript values and control flow *)

(** Strings.  A character of the model stands for one code unit of the
    JavaScript string, so [String.length] is [.length] and
    [substring 0 n] is [.substring(0, n)]. *)
Definition nl : string := String "010"%char EmptyString.
Definition dquote : string := String "034"%char EmptyString.

(** [Number.prototype.toString] on an array index or a length. *)
Definition toString (n : nat) : string :=
  NilEmpty.string_of_uint (Nat.to_uint n).

(** Truthiness of a value that is a string or [undefined]. *)
Definition truthy (v : option string) : bool :=
  match v with
  | Some s => negb (String.eqb s EmptyString)
  | None => false
  end.

(** [v || d] on such a value. *)
Definition or_string (v : option string) (d : string) : string :=
  match v with
  | Some s => if String.eqb s EmptyString then d else s
  | None => d
  end.

(** A thrown value; the source only ever reads its [message]. *)
Record Error := mkError { message : string }.

(** Outcome of evaluating an expression: a value or a throw. *)
Inductive Result (A : Type) : Type :=
| Ok (a : A)
| Throw (e : Error).
Arguments Ok {A} a.
Arguments Throw {A} e.

(** A promise, by the state it settles in. *)
Inductive Promise (A : Type) : Type :=
| Fulfilled (a : A)
| Rejected (e : Error).
Arguments Fulfilled {A} a.
Arguments Rejected {A} e.

(** The promise of an [async] function, from what its body does: it is
    rejected when the body throws. *)
Definition settle {A} (body : Result A) : Promise A :=
  match body with
  | Ok a => Fulfilled a
  | Throw e => Rejected e
  end.

(** Calling an [async] function never throws: whatever its body does,
    the call evaluates to a promise. *)
Definition async {A} (body : Result A) : Result (Promise A) :=
  Ok (settle body).

(** [await p] *)
Definition await {A} (p : Promise A) : Result A :=
  match p with
  | Fulfilled a => Ok a
  | Rejected e => Throw e
  end.

(** [Promise.all]: fulfilled with all the values, in the order of the
    array, when every promise is fulfilled, and rejected as soon as one
    is.  The model reports the rejection of the first rejected promise of
    the array; completion order is not modelled. *)
Fixpoint Promise_all {A} (ps : list (Promise A)) : Promise (list A) :=
  match ps with
  | [] => Fulfilled []
  | Rejected e :: _ => Rejected e
  | Fulfilled a :: ps' =>
      match Promise_all ps' with
      | Fulfilled l => Fulfilled (a :: l)
      | Rejected e => Rejected e
      end
  end.

(** [Array.prototype.map] with a callback that updates a captured
    variable of type [S]: the callback runs on the elements from left
    to right. *)
Fixpoint map_st {A B S} (f : A -> S -> B * S) (l : list A) (s : S)
  : list B * S :=
  match l with
  | [] => ([], s)
  | a :: l' =>
      let '(b, s1) := f a s in
      let '(bs, s2) := map_st f l' s1 in
      (b :: bs, s2)
  end.

(** [Array.prototype.join] *)
Fixpoint join (sep : string) (l : list string) : string :=
  match l with
  | [] => EmptyString
  | [x] => x
  | x :: l' => x +:+ sep +:+ join sep l'
  end.

(** [Array.prototype.slice(start, end)] on integer arguments: a negative
    argument counts from the end of the array. *)
Definition slice_index (len : nat) (i : Z) : nat :=
  if (i <? 0)%Z then Z.to_nat (Z.max (Z.of_nat len + i) 0)
  else Z.to_nat (Z.min i (Z.of_nat len)).

Definition slice {A} (start stop : Z) (l : list A) : list A :=
  let from := slice_index (length l) start in
  let to := slice_index (length l) stop in
  take (to - from) (drop from l).

(** ** Records *)

(** What [getNoteDetailsByTitle] parses from the script's output.  The
    script answers the empty object for a note it cannot read, so every
    field may be absent. *)
Module Note.
Record t := mk {
  title : option string;
  content : option string;
  creation_date : option string;
  modification_date : option string;
}.
(** [{}] *)
Definition empty : t := mk None None None None.
(** [{ ...node, content: c }] *)
Definition with_content (node : t) (c : string) : t :=
  mk (title node) (Some c) (creation_date node) (modification_date node).
End Note.

(** A record handed to the table. *)
Module Chunk.
Record t := mk {
  id : string;
  title : option string;
  content : option string;
  creation_date : option string;
  modification_date : option string;
}.
End Chunk.

(** What [indexNotes] returns; [time], a difference of two readings of
    the wall clock, is left out. *)
Module IndexReport.
Record t := mk {
  chunks : nat;
  report : string;
  allNotes : nat;
}.
End IndexReport.

(** A row selected by a search: the four columns of the table schema. *)
Module Hit.
Record t := mk {
  title : string;
  content : string;
  creation_date : string;
  modification_date : string;
}.
End Hit.

(** ** The storage engine *)

(** The Storage Engine is the LanceDB library, which is not part of this
    repository.  Its state and its four operations below are modelled
    from sections 1, 4.1 and 6 of the spec: tables by name, each with
    its rows and its secondary indices. *)

(** A secondary index of a table. *)
Module Index.
Record t := mk {
  name : string;
  column : string;
}.
End Index.

Module Table.
Record t := mk {
  rows : list Chunk.t;
  indices : list Index.t;
}.
Definition empty : t := mk [] [].
End Table.

(** The calls the program makes on the engine. *)
Inductive Call : Type :=
| CreateEmptyTable (name : string)
| ListIndices (table : string)
| CreateIndex (table column : string) (replace : bool)
| Add (table : string) (records : list Chunk.t).

Record Store := mkStore {
  tables : gmap string Table.t;
  calls : list Call;
}.

Definition record_call (c : Call) (w : Store) : Store :=
  mkStore (tables w) (calls w ++ [c]).

Definition set_table (name : string) (t : Table.t) (w : Store) : Store :=
  mkStore (<[name := t]> (tables w)) (calls w).

(** Code that runs on the store and may throw; what was done before a
    throw stays done. *)
Definition M (A : Type) : Type := Store -> Result A * Store.

Definition ret {A} (a : A) : M A := fun w => (Ok a, w).

Definition bind {A B} (m : M A) (k : A -> M B) : M B := fun w =>
  match m w with
  | (Ok a, w') => k a w'
  | (Throw e, w') => (Throw e, w')
  end.

Definition lift {A} (r : Result A) : M A := fun w => (r, w).

Declare Scope js_scope.
Delimit Scope js_scope with js.
Notation "'let*' x ':=' m 'in' k" := (bind m (fun x => k))
  (at level 10, x pattern, m at level 100, k at level 200) : js_scope.

Definition no_such_table (name : string) : Error :=
  mkError ("Table '" +:+ name +:+ "' was not found").

(** Modelled from the spec: the engine's
    [db.createEmptyTable(name, schema, { mode: "create", existOk: true })],
    which creates the table, empty, when there is none of that name and
    opens it, unchanged, when there is one.  The answer is a handle on
    the table, here its name. *)
Definition createEmptyTable (name : string) : M string := fun w =>
  let w := record_call (CreateEmptyTable name) w in
  match tables w !! name with
  | Some _ => (Ok name, w)
  | None => (Ok name, set_table name Table.empty w)
  end.

(** Modelled from the spec: the engine's [table.listIndices()]. *)
Definition listIndices (table : string) : M (list Index.t) := fun w =>
  let w := record_call (ListIndices table) w in
  match tables w !! table with
  | Some t => (Ok (Table.indices t), w)
  | None => (Throw (no_such_table table), w)
  end.

(** Modelled from the spec: the name the engine gives to an index that
    is created without a name, after its column. *)
Definition index_name (column : string) : string := column +:+ "_idx".

Definition named (n : string) (i : Index.t) : bool :=
  String.eqb (Index.name i) n.

(** Modelled from the spec: the engine's
    [table.createIndex(column, { config: Index.fts(), replace })].  Under
    the replace policy an index of the same name is superseded; an
    index of another name is left. *)
Definition createIndex (table column : string) (replace : bool) : M unit :=
  fun w =>
  let w := record_call (CreateIndex table column replace) w in
  match tables w !! table with
  | None => (Throw (no_such_table table), w)
  | Some t =>
      let n := index_name column in
      if existsb (named n) (Table.indices t) && negb replace then
        (Throw (mkError ("Index '" +:+ n +:+ "' already exists")), w)
      else
        let others :=
          List.filter (fun i => negb (named n i)) (Table.indices t) in
        (Ok tt,
         set_table table
           (Table.mk (Table.rows t) (others ++ [Index.mk n column])) w)
  end.

(** Modelled from the spec: the engine's [table.add(records)], an
    append of the records to the rows of the table. *)
Definition add (table : string) (records : list Chunk.t) : M unit := fun w =>
  let w := record_call (Add table records) w in
  match tables w !! table with
  | None => (Throw (no_such_table table), w)
  | Some t =>
      (Ok tt,
       set_table table (Table.mk (Table.rows t ++ records) (Table.indices t)) w)
  end.

(** ** The indexing pipeline *)

Section IndexNotes.

(** The Document Source.  [listTitles] is what the body of [getNotes]
    does: the script runs, or throws, and its answer is cast to an array
    of titles ([None] when the answer is [null] or [undefined]).
    [noteDetails title] is what the body of [getNoteDetailsByTitle]
    does: the script and [JSON.parse] of its answer, either of which may
    throw. *)
Variable listTitles : Result (option (list string)).
Variable noteDetails : string -> Result Note.t.

(** The Content Normalizer backend, [turndown]. *)
Variable turndown : string -> Result string.

(** [const getNotes = async () => ...] *)
Definition getNotes : Result (Promise (option (list string))) :=
  async listTitles.

(** [const getNoteDetailsByTitle = async (title: string) => ...] *)
Definition getNoteDetailsByTitle (title : string)
  : Result (Promise Note.t) :=
  async (noteDetails title).

(** The callback of [allNotes.map]:
    [try { return getNoteDetailsByTitle(note); }
     catch (error) { report += ...; return {}; }].
    A value that is not a promise is, for [Promise.all], a fulfilled
    one. *)
Definition fetchDetails (note : string) (report : string)
  : Promise Note.t * string :=
  match getNoteDetailsByTitle note with
  | Ok p => (p, report)
  | Throw error =>
      (Fulfilled Note.empty,
       report +:+ "Error getting note details for " +:+ note +:+ ": "
              +:+ message error +:+ nl)
  end.

(** The callback of the first [.map] over the filtered details:
    [try { return { ...node, content: turndown(node.content || "") } }
     catch (error) { return node }]. *)
Definition normalizeNode (node : Note.t) : Note.t :=
  match turndown (or_string (Note.content node) EmptyString) with
  | Ok text => Note.with_content node text
  | Throw _ => node
  end.

(** The callback of the second [.map]. *)
Definition toChunk (index : nat) (note : Note.t) : Chunk.t :=
  Chunk.mk (toString index) (Note.title note) (Note.content note)
           (Note.creation_date note) (Note.modification_date note).

(** [notesDetails.filter(...).map(...).map(...)] *)
Definition makeChunks (notesDetails : list Note.t) : list Chunk.t :=
  imap toChunk
    (map normalizeNode
       (List.filter (fun n => truthy (Note.title n)) notesDetails)).

(** [export const indexNotes = async (notesTable: any) => ...]: the
    body of the function, so a [Throw] is a rejected promise. *)
Definition indexNotes (notesTable : string) : M IndexReport.t :=
  (let report := EmptyString in
   let* listing := lift getNotes in
   let* got := lift (await listing) in
   let allNotes := default [] got in
   let '(promises, report) := map_st fetchDetails allNotes report in
   let* notesDetails := lift (await (Promise_all promises)) in
   let chunks := makeChunks notesDetails in
   let* _ := add notesTable chunks in
   ret (IndexReport.mk (length chunks) report (length allNotes)))%js.

End IndexNotes.

(** ** The provisioner *)

(** [overrideName || "notes"] *)
Definition tableName (overrideName : option string) : string :=
  or_string overrideName "notes".

(** [export const createNotesTable = async (overrideName?: string) => ...];
    of the answer [{ notesTable, time }] the model keeps the handle. *)
Definition createNotesTable (overrideName : option string) : M string :=
  (let* notesTable := createEmptyTable (tableName overrideName) in
   let* indices := listIndices notesTable in
   let* _ :=
     match List.find (named "content_idx") indices with
     | None => createIndex notesTable "content" true
     | Some _ => ret tt
     end in
   ret notesTable)%js.

(** ** The hybrid search merge *)

(** A JavaScript [Map] with string keys: the entries in the order in
    which their keys were first set. *)
Definition JsMap (V : Type) : Type := list (string * V).

(** [Map.prototype.set]: a key that is present keeps its place and
    takes the new value, a new key goes to the end. *)
Fixpoint map_set {V} (k : string) (v : V) (m : JsMap V) : JsMap V :=
  match m with
  | [] => [(k, v)]
  | (k', v') :: m' =>
      if String.eqb k' k then (k', v) :: m' else (k', v') :: map_set k v m'
  end.

(** [new Map(entries)] *)
Definition new_Map {V} (entries : list (string * V)) : JsMap V :=
  fold_left (fun m e => map_set (fst e) (snd e) m) entries [].

(** [Array.from(m.values())] *)
Definition values {V} (m : JsMap V) : list V := map snd m.

(** The callback [(item) => [item.title, item]]. *)
Definition titled_entry (item : Hit.t) : string * Hit.t :=
  (Hit.title item, item).

(** [Array.from(new Map(allResults.map((item) => [item.title, item])).values())] *)
Definition uniqueResults (allResults : list Hit.t) : list Hit.t :=
  values (new_Map (map titled_entry allResults)).

(** The snippet of [processResults]. *)
Definition snippet (content : string) : string :=
  if Nat.ltb 300 (String.length content)
  then substring 0 300 content +:+ "..."
  else content.

(** The callback of [results.map] in [processResults]. *)
Definition renderEntry (startRank : nat) (index : nat) (result : Hit.t)
  : string :=
  let rank := startRank + index in
  toString rank +:+ ". **" +:+ Hit.title result +:+ "**" +:+ nl
    +:+ snippet (Hit.content result) +:+ nl.

(** [const processResults = (results: any[], startRank: number) => ...] *)
Definition processResults (results : list Hit.t) (startRank : nat) : string :=
  join nl (imap (renderEntry startRank) results).

Section Search.

(** The two searches of the table:
    [notesTable.vectorSearch(query, { topK }).select([...]).execute()] and
    [notesTable.search(field, query).select([...]).limit(n).execute()]. *)
Variable vectorSearch : string -> Z -> Result (list Hit.t).
Variable search : string -> string -> Z -> Result (list Hit.t).

(** [export const searchAndCombineResults =
       async (notesTable, query, limit = 20) => ...] *)
Definition searchAndCombineResults (query : string) (limit : option Z)
  : Result string :=
  let limit := default 20%Z limit in
  match vectorSearch query limit with
  | Throw e => Throw e
  | Ok semanticResults =>
      match search "content" query limit with
      | Throw e => Throw e
      | Ok fullTextResults =>
          let allResults := (semanticResults ++ fullTextResults)%list in
          let uniqueResults := uniqueResults allResults in
          let resultText := processResults (slice 0 limit uniqueResults) 1 in
          Ok ("Found " +:+ toString (length uniqueResults)
                +:+ " notes matching " +:+ dquote +:+ query +:+ dquote
                +:+ ":" +:+ nl +:+ nl +:+ resultText)
      end
  end.

End Search.

(** ** The vocabulary of the properties *)

(** The titles whose detail passes [.filter((n) => n.title)]. *)
Definition survives (noteDetails : string -> Result Note.t) (title : string)
  : bool :=
  match noteDetails title with
  | Ok d => truthy (Note.title d)
  | Throw _ => false
  end.

(** A chunk has a title that is a non-empty string. *)
Definition titled (c : Chunk.t) : Prop :=
  exists s, Chunk.title c = Some s /\ s <> EmptyString.

(** Every row of every table has a non-empty title. *)
Definition store_titled (w : Store) : Prop :=
  forall name t, tables w !! name = Some t -> Forall titled (Table.rows t).

(** The number of indices of a table that are named [content_idx]. *)
Definition content_index_count (t : Table.t) : nat :=
  length (List.filter (named "content_idx") (Table.indices t)).

(** The engine keeps the names of the indices of a table distinct. *)
Definition indices_distinct (w : Store) : Prop :=
  forall name t,
    tables w !! name = Some t -> NoDup (Index.name <$> Table.indices t).

(** The titles of a sequence, each at the place of its first
    occurrence. *)
Fixpoint first_occurrences (l : list string) : list string :=
  match l with
  | [] => []
  | t :: l' =>
      t :: List.filter (fun u => negb (String.eqb u t)) (first_occurrences l')
  end.

(** The last hit of a sequence that has a given title. *)
Definition last_titled (t : string) (l : list Hit.t) : option Hit.t :=
  List.find (fun r => String.eqb (Hit.title r) t) (rev l).

(** ** Running the model *)

Module Examples.

Definition note (t c : string) : Note.t :=
  Note.mk (Some t) (Some c) (Some "2023-01-01") (Some "2023-01-02").

(** A Document Source with the notes A, B and C; the note Gone cannot
    be read, and asking for Broken fails. *)
Definition details (title : string) : Result Note.t :=
  if String.eqb title "Broken" then Throw (mkError "boom")
  else if String.eqb title "Gone" then Ok Note.empty
  else Ok (note title ("<p>" +:+ title +:+ "</p>")).

(** A normalizer that fails on the content of B. *)
Definition normalizer (raw : string) : Result string :=
  if String.eqb raw "<p>B</p>" then Throw (mkError "unsupported")
  else Ok ("md:" +:+ raw).

Definition fresh : Store := mkStore ∅ [].
Definition ready : Store := snd (createNotesTable None fresh).

Definition hit (t c : string) : Hit.t := Hit.mk t c "2023-01-01" "2023-01-02".

End Examples.

(** ** The scripts *)

Definition backslash : ascii := "092"%char.
Definition quote_char : ascii := "034"%char.
Definition backtick_char : ascii := "096"%char.

(** [s.replace(/c/g, "\\c")] for a character [c]: every occurrence of
    [c] gets a backslash before it. *)
Fixpoint escapeChar (c : ascii) (s : string) : string :=
  match s with
  | EmptyString => EmptyString
  | String a s' =>
      if Ascii.eqb a c then String backslash (String a (escapeChar c s'))
      else String a (escapeChar c s')
  end.

(** The script of [getNoteDetailsByTitle], a template literal with the
    title put in as it is. *)
Definition noteDetailsScript (title : string) : string :=
  "const app = Application('Notes');" +:+ nl
  +:+ "    const title = " +:+ dquote +:+ title +:+ dquote +:+ nl
  +:+ "    " +:+ nl
  +:+ "    try {" +:+ nl
  +:+ "        const note = app.notes.whose({name: title})[0];" +:+ nl
  +:+ "        " +:+ nl
  +:+ "        const noteInfo = {" +:+ nl
  +:+ "            title: note.name()," +:+ nl
  +:+ "            content: note.body()," +:+ nl
  +:+ "            creation_date: note.creationDate().toLocaleString()," +:+ nl
  +:+ "            modification_date: note.modificationDate().toLocaleString()"
  +:+ nl
  +:+ "        };" +:+ nl
  +:+ "        " +:+ nl
  +:+ "        return JSON.stringify(noteInfo);" +:+ nl
  +:+ "    } catch (error) {" +:+ nl
  +:+ "        return " +:+ dquote +:+ "{}" +:+ dquote +:+ ";" +:+ nl
  +:+ "    }".

(** The script of [createNote], a template literal with the title and
    the content put in after their [replace]. *)
Definition createNoteScript (title content : string) : string :=
  nl
  +:+ "      const app = Application('Notes');" +:+ nl
  +:+ "      app.includeStandardAdditions = true;" +:+ nl
  +:+ "      " +:+ nl
  +:+ "      const title = " +:+ dquote +:+ escapeChar quote_char title
  +:+ dquote +:+ ";" +:+ nl
  +:+ "      const content = `" +:+ escapeChar backtick_char content +:+ "`;"
  +:+ nl
  +:+ "      " +:+ nl
  +:+ "      try {" +:+ nl
  +:+ "        const note = app.make({new: " +:+ dquote +:+ "note" +:+ dquote
  +:+ ", withProperties: {name: title, body: content}});" +:+ nl
  +:+ "        return JSON.stringify({success: true, message: " +:+ dquote
  +:+ "Note created successfully" +:+ dquote +:+ "});" +:+ nl
  +:+ "      } catch (error) {" +:+ nl
  +:+ "        return JSON.stringify({success: false, message: error.message});"
  +:+ nl
  +:+ "      }" +:+ nl
  +:+ "    ".

(** How the interpreter of a script reads a string literal in double
    quotes, from just after the opening quote: a backslash takes the
    character after it with it, and the first quote that no backslash
    has taken closes the literal.  The answer is the text of the literal
    and what follows its closing quote; there is none when no quote
    closes it. *)
Fixpoint read_literal (s : string) : option (string * string) :=
  match s with
  | EmptyString => None
  | String a s' =>
      if Ascii.eqb a quote_char then Some (EmptyString, s')
      else if Ascii.eqb a backslash then
        match s' with
        | EmptyString => None
        | String b s'' =>
            match read_literal s'' with
            | Some (body, rest) => Some (String a (String b body), rest)
            | None => None
            end
        end
      else
        match read_literal s' with
        | Some (body, rest) => Some (String a body, rest)
        | None => None
        end
  end.

(** A string has no occurrence of a character. *)
Fixpoint lacks (c : ascii) (s : string) : bool :=
  match s with
  | EmptyString => true
  | String a s' => negb (Ascii.eqb a c) && lacks c s'
  end.

(** The string that the text of a literal stands for, where its only
    escapes are of a quote or of a backslash: the escaped character. *)
Fixpoint literal_value (body : string) : string :=
  match body with
  | EmptyString => EmptyString
  | String a s' =>
      if Ascii.eqb a backslash then
        match s' with
        | EmptyString => String a EmptyString
        | String b s'' => String b (literal_value s'')
        end
      else String a (literal_value s')
  end.

(** ** Values of requests *)

(** A value of a parameter of a request; an absent one is [None]. *)
Inductive JsValue : Type :=
| JsString (s : string)
| JsNumber (n : Z)
| JsBool (b : bool)
| JsNull.

(** A value in a template literal, [undefined] included. *)
Definition template (v : option string) : string := default "undefined" v.

(** [try { ... } catch (error) { ... }] around code that evaluates to a
    value. *)
Definition try_catch {A} (body : Result A) (handler : Error -> Result A)
  : Result A :=
  match body with
  | Ok a => Ok a
  | Throw error => handler error
  end.

(** A step of code that may throw, followed by the rest. *)
Definition and_then {A B} (r : Result A) (k : A -> Result B) : Result B :=
  match r with
  | Ok a => k a
  | Throw e => Throw e
  end.

(** [try { ... } catch (error) { ... }] around code that runs on the
    store. *)
Definition try_catch_M {A} (body : M A) (handler : Error -> M A) : M A :=
  fun w =>
  match body w with
  | (Ok a, w') => (Ok a, w')
  | (Throw error, w') => handler error w'
  end.

(** ** Creating a note *)

Module CreateResult.
Record t := mk {
  success : bool;
  message : string;
}.
End CreateResult.

Section CreateNote.

(** [runJxa script], the answer of the script as a string, and
    [JSON.parse] of that answer, cast to the result record. *)
Variable runJxa : string -> Result string.
Variable JSON_parse : string -> Result CreateResult.t.

(** The [TypeError] of the engine for [x.replace] where [x] is not a
    string, by the name of [x]. *)
Variable typeError : string -> Error.

(** The receiver of [x.replace(...)]. *)
Definition as_string (x : string) (v : option JsValue) : Result string :=
  match v with
  | Some (JsString s) => Ok s
  | _ => Throw (typeError x)
  end.

(** [const createNote = async (title: string, content: string) => ...]:
    the body of the function.  The handler passes the parameters of the
    request as they came, so they need not be strings. *)
Definition createNote (title content : option JsValue)
  : Result CreateResult.t :=
  try_catch
    (and_then (as_string "title" title) (fun title =>
     and_then (as_string "content" content) (fun content =>
     and_then (runJxa (createNoteScript title content)) (fun result =>
     JSON_parse result))))
    (fun error =>
       Ok (CreateResult.mk false
             ("Failed to create note: " +:+ message error))).

End CreateNote.

(** ** The embedding function *)

Section Embedding.

(** The vectors of the model, and [extractor(x, { pooling: "mean" })]
    followed by [output.data]. *)
Variable Vector : Type.
Variable extractor : string -> Result Vector.

(** [ndims()] *)
Definition ndims : nat := 384.

(** [async computeQueryEmbeddings(data: string)] *)
Definition computeQueryEmbeddings (data : string) : Result (Promise Vector) :=
  async (extractor data).

(** [async computeSourceEmbeddings(data: string[])]; the callback of
    [data.map] is an [async] arrow, so every element of the array is a
    promise. *)
Definition computeSourceEmbeddings (data : list string)
  : Result (Promise (list Vector)) :=
  async (await (Promise_all (map (fun item => settle (extractor item)) data))).

End Embedding.

(** ** The server *)

(** A tool of the answer to [ListToolsRequestSchema]: its name, its
    description, the keys of [inputSchema.properties] and
    [inputSchema.required]. *)
Module Tool.
Record t := mk {
  name : string;
  description : string;
  properties : list string;
  required : list string;
}.
End Tool.

(** The [tools] of the handler of [ListToolsRequestSchema]. *)
Definition listTools : list Tool.t :=
  [ Tool.mk "list-notes" "Lists just the titles of all my Apple Notes" [] [];
    Tool.mk "index-notes"
      "Index all my Apple Notes for Semantic Search. Please tell the user that the sync takes couple of seconds up to couple of minutes depending on how many notes you have."
      [] [];
    Tool.mk "get-note" "Get a note full content and details by title"
      ["title"] ["title"];
    Tool.mk "search-notes" "Search for notes by title or content"
      ["query"] ["query"];
    Tool.mk "create-note"
      "Create a new Apple Note with specified title and content. Must be in HTML format WITHOUT newlines"
      ["title"; "content"] ["title"; "content"] ].

Module Response.
Record t := mk {
  type : string;
  text : string;
}.
End Response.

(** [const createTextResponse = (text: string) => ({ type: "text", text })] *)
Definition createTextResponse (text : string) : Response.t :=
  Response.mk "text" text.

(** What the handler reads of a request: [name], which may be
    [undefined], and [parameters], an object or [undefined]. *)
Module Request.
Record t := mk {
  name : option string;
  parameters : option (gmap string JsValue);
}.
End Request.

(** [name === s] *)
Definition name_is (name : option string) (s : string) : bool :=
  match name with
  | Some n => String.eqb n s
  | None => false
  end.

(** Modelled from the spec: the two searches of the engine, which
    answer from the rows of the table. *)
Definition search_rows (table : string) (w : Store) : Result (list Chunk.t) :=
  match tables w !! table with
  | Some t => Ok (Table.rows t)
  | None => Throw (no_such_table table)
  end.

Section Server.

(** The Document Source and the normalizer, as for [indexNotes]. *)
Variable listTitles : Result (option (list string)).
Variable noteDetails : string -> Result Note.t.
Variable turndown : string -> Result string.

(** The searches of the engine on the rows of a table. *)
Variable engineVectorSearch :
  list Chunk.t -> string -> Z -> Result (list Hit.t).
Variable engineSearch :
  list Chunk.t -> string -> string -> Z -> Result (list Hit.t).

(** The script runner and [JSON.parse], as for [createNote]. *)
Variable runJxa : string -> Result string.
Variable JSON_parse : string -> Result CreateResult.t.

(** The errors of the engine and of the schema library: the [TypeError]
    for an expression that reads a property of a value that has none,
    and the error of [Schema.parse] for a field and the parameters. *)
Variable typeError : string -> Error.
Variable zodError : string -> option (gmap string JsValue) -> Error.

(** [Math.round(result.time)], the milliseconds that the clock counts
    for the run of [indexNotes]. *)
Variable indexTime : nat.

(** [z.object({ field: z.string() }).parse(parameters)] *)
Definition parse_field (field : string)
    (parameters : option (gmap string JsValue)) : Result string :=
  match parameters with
  | Some o =>
      match o !! field with
      | Some (JsString s) => Ok s
      | _ => Throw (zodError field parameters)
      end
  | None => Throw (zodError field parameters)
  end.

(** [notesTable.vectorSearch(...)] and [notesTable.search(...)] on the
    table of a handle. *)
Definition vectorSearch (table : string) (w : Store)
  : string -> Z -> Result (list Hit.t) :=
  fun query limit =>
    and_then (search_rows table w) (fun rows =>
    engineVectorSearch rows query limit).

Definition search (table : string) (w : Store)
  : string -> string -> Z -> Result (list Hit.t) :=
  fun field query limit =>
    and_then (search_rows table w) (fun rows =>
    engineSearch rows field query limit).

(** The branch of [list-notes]. *)
Definition listNotesTool : M Response.t :=
  try_catch_M
    (let* listing := lift (getNotes listTitles) in
     let* notes := lift (await listing) in
     let* notes :=
       lift (match notes with
             | Some l => Ok l
             | None => Throw (typeError "notes.length")
             end) in
     ret (createTextResponse
            ("Found " +:+ toString (length notes) +:+ " notes:" +:+ nl +:+ nl
               +:+ join nl notes)))%js
    (fun error =>
       ret (createTextResponse ("Error listing notes: " +:+ message error))).

(** The branch of [index-notes]. *)
Definition indexNotesTool : M Response.t :=
  try_catch_M
    (let* notesTable := createNotesTable None in
     let* result := indexNotes listTitles noteDetails turndown notesTable in
     ret (createTextResponse
            ("Successfully indexed " +:+ toString (IndexReport.chunks result)
               +:+ " notes in " +:+ toString indexTime +:+ "ms.")))%js
    (fun error =>
       ret (createTextResponse ("Error indexing notes: " +:+ message error))).

(** The branch of [get-note]. *)
Definition getNoteTool (parameters : option (gmap string JsValue))
  : M Response.t :=
  try_catch_M
    (let* title := lift (parse_field "title" parameters) in
     let* fetching := lift (getNoteDetailsByTitle noteDetails title) in
     let* note := lift (await fetching) in
     if negb (truthy (Note.title note)) then
       ret (createTextResponse
              ("Note with title " +:+ dquote +:+ title +:+ dquote
                 +:+ " not found."))
     else
       let* markdown :=
         lift (turndown (or_string (Note.content note) EmptyString)) in
       ret (createTextResponse
              ("# " +:+ template (Note.title note) +:+ nl +:+ nl
                 +:+ markdown +:+ nl +:+ nl
                 +:+ "Created: " +:+ template (Note.creation_date note) +:+ nl
                 +:+ "Last Modified: "
                 +:+ template (Note.modification_date note))))%js
    (fun error =>
       ret (createTextResponse ("Error getting note: " +:+ message error))).

(** The branch of [search-notes]. *)
Definition searchNotesTool (parameters : option (gmap string JsValue))
  : M Response.t :=
  try_catch_M
    (let* query := lift (parse_field "query" parameters) in
     let* notesTable := createNotesTable None in
     let* results :=
       (fun w =>
          (searchAndCombineResults (vectorSearch notesTable w)
             (search notesTable w) query None, w)) in
     ret (createTextResponse results))%js
    (fun error =>
       ret (createTextResponse ("Error searching notes: " +:+ message error))).

(** The branch of [create-note]. *)
Definition createNoteTool (parameters : option (gmap string JsValue))
  : M Response.t :=
  try_catch_M
    (let* o :=
       lift (match parameters with
             | Some o => Ok o
             | None => Throw (typeError "parameters")
             end) in
     let title := o !! "title" in
     let content := o !! "content" in
     let* result := lift (createNote runJxa JSON_parse typeError title content) in
     if CreateResult.success result then
       ret (createTextResponse
              ("Created note " +:+ dquote
                 +:+ template (match title with
                               | Some (JsString s) => Some s
                               | _ => None
                               end)
                 +:+ dquote +:+ " successfully."))
     else
       ret (createTextResponse
              ("Failed to create note. " +:+ CreateResult.message result)))%js
    (fun _ =>
       ret (createTextResponse
              "Failed to create note. Please check your Apple Notes configuration.")).

(** The handler of [CallToolRequestSchema]. *)
Definition callTool (request : Request.t) : M Response.t :=
  let name := Request.name request in
  let parameters := Request.parameters request in
  if name_is name "list-notes" then listNotesTool
  else if name_is name "index-notes" then indexNotesTool
  else if name_is name "get-note" then getNoteTool parameters
  else if name_is name "search-notes" then searchNotesTool parameters
  else if name_is name "create-note" then createNoteTool parameters
  else ret (createTextResponse ("Unknown tool: " +:+ template name)).

End Server.

(** ** More of the vocabulary, and fixtures *)

(** A response is a text that does not say that the tool is unknown. *)
Definition handled (r : Response.t) : Prop :=
  Response.type r = "text"
  /\ String.prefix "Unknown tool: " (Response.text r) = false.

(** Code on the store whose every returned response has a property. *)
Definition returns_only (P : Response.t -> Prop) (m : M Response.t) : Prop :=
  forall w r w', m w = (Ok r, w') -> P r.

(** The rows of a table, none when there is no such table. *)
Definition rows_of (table : string) (w : Store) : list Chunk.t :=
  default [] (Table.rows <$> tables w !! table).

(** The hit of a row: its columns, empty where the row has none. *)
Definition hit_of_chunk (c : Chunk.t) : Hit.t :=
  Hit.mk (default EmptyString (Chunk.title c))
         (default EmptyString (Chunk.content c))
         (default EmptyString (Chunk.creation_date c))
         (default EmptyString (Chunk.modification_date c)).

Module Fixtures.

(** An engine whose vector search answers the first rows and whose
    full-text search answers the rows with exactly the content asked. *)
Definition vectorSearch (rows : list Chunk.t) (query : string) (limit : Z)
  : Result (list Hit.t) :=
  Ok (take (Z.to_nat limit) (hit_of_chunk <$> rows)).

Definition search (rows : list Chunk.t) (field query : string) (limit : Z)
  : Result (list Hit.t) :=
  Ok (take (Z.to_nat limit)
        (List.filter (fun h => String.eqb (Hit.content h) query)
           (hit_of_chunk <$> rows))).

(** A script runner that answers what [JSON.parse] below reads as a
    success. *)
Definition runJxa (script : string) : Result string := Ok "created".

Definition JSON_parse (answer : string) : Result CreateResult.t :=
  if String.eqb answer "created"
  then Ok (CreateResult.mk true "Note created successfully")
  else Throw (mkError "Unexpected token").

Definition typeError (x : string) : Error :=
  mkError ("TypeError: " +:+ x).

Definition zodError (field : string) (parameters : option (gmap string JsValue))
  : Error :=
  mkError ("Required: " +:+ field).

(** A vector of the embedding model: here the length of the text. *)
Definition extractor (text : string) : Result nat :=
  if String.eqb text EmptyString then Throw (mkError "empty input")
  else Ok (String.length text).

(** The handler on the Document Source of the examples. *)
Definition callTool (titles : list string) : Request.t -> M Response.t :=
  callTool (Ok (Some titles)) Examples.details Examples.normalizer
    vectorSearch search runJxa JSON_parse typeError zodError 7.

Definition request (name : string) (parameters : list (string * JsValue))
  : Request.t :=
  Request.mk (Some name) (Some (list_to_map parameters)).

End Fixtures.

(** ** Facts about the JavaScript helpers *)

Lemma toString_inj (m n : nat) : toString m = toString n -> m = n.
Proof.
  unfold toString. intros H.
  apply (f_equal NilEmpty.uint_of_string) in H.
  rewrite !NilEmpty.usu in H.
  apply DecimalNat.Unsigned.to_uint_inj. congruence.
Qed.

Lemma map_st_const {A B S} (g : A -> B) (f : A -> S -> B * S) l s :
  (forall a s', f a s' = (g a, s')) -> map_st f l s = (map g l, s).
Proof.
  intros Hf. induction l as [|a l IH]; simpl; [done|].
  by rewrite Hf, IH.
Qed.

Lemma Promise_all_settle {A B} (f : A -> Result B) (l : list A) :
  match Promise_all (map (fun a => settle (f a)) l) with
  | Fulfilled ds => Forall2 (fun a d => f a = Ok d) l ds
  | Rejected e => exists a, a ∈ l /\ f a = Throw e
  end.
Proof.
  induction l as [|a l IH]; simpl; [constructor|].
  destruct (f a) as [d|e] eqn:Ea; simpl.
  - destruct (Promise_all _) as [ds|e'].
    + by constructor.
    + destruct IH as (a' & Hin & Ha'). exists a'. split; [by right|done].
  - exists a. split; [by left|done].
Qed.

(** ** Facts about the storage engine *)

Lemma add_calls table records w :
  calls (add table records w).2 = (calls w ++ [Add table records])%list.
Proof. unfold add. simpl. by destruct (tables w !! table). Qed.

Lemma add_ok table records w t :
  tables w !! table = Some t ->
  add table records w
  = (Ok tt,
     mkStore
       (<[table := Table.mk (Table.rows t ++ records) (Table.indices t)]>
          (tables w))
       (calls w ++ [Add table records])).
Proof. intros Ht. unfold add. simpl. by rewrite Ht. Qed.

(** ** The indexing pipeline: what a run does *)

Lemma truthy_Some v : truthy v = true -> exists s, v = Some s /\ s <> EmptyString.
Proof.
  destruct v as [s|]; simpl; [|done]. intros H. exists s. split; [done|].
  intros ->. by rewrite String.eqb_refl in H.
Qed.

Section IndexNotesFacts.

Variable noteDetails : string -> Result Note.t.
Variable turndown : string -> Result string.

(** The [catch] of the fetch callback is never entered: the call of
    the [async] function answers a promise, and the report is left as
    it was. *)
Lemma fetchDetails_promise note report :
  fetchDetails noteDetails note report
  = (settle (noteDetails note), report).
Proof. reflexivity. Qed.

(** The whole of a run, by cases on what the Document Source does. *)
Lemma indexNotes_run listTitles table w :
  indexNotes listTitles noteDetails turndown table w
  = match listTitles with
    | Throw e => (Throw e, w)
    | Ok got =>
        let allNotes := default [] got in
        match Promise_all (map (fun t => settle (noteDetails t)) allNotes) with
        | Rejected e => (Throw e, w)
        | Fulfilled notesDetails =>
            let chunks := makeChunks turndown notesDetails in
            match add table chunks w with
            | (Ok _, w') =>
                (Ok (IndexReport.mk (length chunks) EmptyString
                       (length allNotes)), w')
            | (Throw e, w') => (Throw e, w')
            end
        end
    end.
Proof.
  unfold indexNotes, bind, lift, getNotes, async, ret.
  destruct listTitles as [got|e]; simpl; [|done].
  rewrite (map_st_const (fun t => settle (noteDetails t)))
    by apply fetchDetails_promise.
  destruct (Promise_all _) as [ds|e]; simpl; [|done].
  by destruct (add table _ w) as [[[]|e] w'].
Qed.

Lemma makeChunks_length ds :
  length (makeChunks turndown ds)
  = length (List.filter (fun n => truthy (Note.title n)) ds).
Proof. unfold makeChunks. by rewrite length_imap, length_map. Qed.

Lemma makeChunks_lookup ds i :
  makeChunks turndown ds !! i
  = (fun n => toChunk i (normalizeNode turndown n))
      <$> List.filter (fun n => truthy (Note.title n)) ds !! i.
Proof.
  unfold makeChunks. rewrite list_lookup_imap, list_lookup_fmap.
  by destruct (_ !! i).
Qed.

Lemma normalizeNode_title n :
  Note.title (normalizeNode turndown n) = Note.title n.
Proof. unfold normalizeNode. by destruct (turndown _). Qed.

Lemma normalizeNode_dates n :
  Note.creation_date (normalizeNode turndown n) = Note.creation_date n
  /\ Note.modification_date (normalizeNode turndown n)
     = Note.modification_date n.
Proof. unfold normalizeNode. by destruct (turndown _). Qed.

Lemma makeChunks_titled ds : Forall titled (makeChunks turndown ds).
Proof.
  apply Forall_lookup_2. intros i c. rewrite makeChunks_lookup.
  destruct (_ !! i) as [n|] eqn:En; simpl; [|done].
  intros [= <-]. apply list_elem_of_lookup_2, list_elem_of_In in En.
  apply filter_In in En as [_ Ht]. unfold titled. simpl.
  rewrite normalizeNode_title. by apply truthy_Some.
Qed.

(** The details that pass the filter are those of the surviving
    titles, one for one and in the same order. *)
Lemma survivors_details titles ds :
  Forall2 (fun t d => noteDetails t = Ok d) titles ds ->
  Forall2 (fun t d => noteDetails t = Ok d)
    (List.filter (survives noteDetails) titles)
    (List.filter (fun n => truthy (Note.title n)) ds).
Proof.
  induction 1 as [|t d titles ds Htd _ IH]; simpl; [constructor|].
  unfold survives at 1. rewrite Htd.
  destruct (truthy (Note.title d)); [by constructor|done].
Qed.

Lemma fetched_all titles :
  (forall t, t ∈ titles -> exists d, noteDetails t = Ok d) ->
  exists ds,
    Forall2 (fun t d => noteDetails t = Ok d) titles ds
    /\ Promise_all (map (fun t => settle (noteDetails t)) titles)
       = Fulfilled ds.
Proof.
  intros Hall. pose proof (Promise_all_settle noteDetails titles) as H.
  destruct (Promise_all _) as [ds|e]; [by exists ds|].
  destruct H as (t & Hin & Ht). destruct (Hall t Hin) as [d Hd]. congruence.
Qed.

End IndexNotesFacts.

Section IndexNotesRuns.

Variable noteDetails : string -> Result Note.t.
Variable turndown : string -> Result string.

(** A run in which every detail is fetched hands the table the chunks
    of the fetched details. *)
Lemma indexNotes_completed got table w :
  (forall t, t ∈ default [] got -> exists d, noteDetails t = Ok d) ->
  exists ds,
    Forall2 (fun t d => noteDetails t = Ok d) (default [] got) ds
    /\ indexNotes (Ok got) noteDetails turndown table w
       = match add table (makeChunks turndown ds) w with
         | (Ok _, w') =>
             (Ok (IndexReport.mk (length (makeChunks turndown ds))
                    EmptyString (length (default [] got))), w')
         | (Throw e, w') => (Throw e, w')
         end.
Proof.
  intros Hall. destruct (fetched_all noteDetails _ Hall) as (ds & Hds & Hp).
  exists ds. split; [done|]. rewrite indexNotes_run. simpl. by rewrite Hp.
Qed.

(** A run in which a fetch fails is rejected with the error of a failed
    fetch, and the table is not touched. *)
Lemma indexNotes_failed_fetch got table w t e :
  t ∈ default [] got -> noteDetails t = Throw e ->
  exists t' e',
    t' ∈ default [] got /\ noteDetails t' = Throw e'
    /\ indexNotes (Ok got) noteDetails turndown table w = (Throw e', w).
Proof.
  intros Hin Ht. rewrite indexNotes_run. simpl.
  pose proof (Promise_all_settle noteDetails (default [] got)) as H.
  destruct (Promise_all _) as [ds|e'].
  - apply list_elem_of_lookup in Hin as [i Hi].
    destruct (Forall2_lookup_l _ _ _ _ _ H Hi) as (d & _ & Hd). congruence.
  - destruct H as (t' & Hin' & Ht'). by exists t', e'.
Qed.

(** The chunk at a position comes from the detail of the surviving
    title at that position. *)
Lemma survivor_chunk titles ds i t :
  Forall2 (fun t d => noteDetails t = Ok d) titles ds ->
  List.filter (survives noteDetails) titles !! i = Some t ->
  exists d,
    noteDetails t = Ok d
    /\ makeChunks turndown ds !! i
       = Some (toChunk i (normalizeNode turndown d)).
Proof.
  intros Hds Hi. apply survivors_details in Hds.
  destruct (Forall2_lookup_l _ _ _ _ _ Hds Hi) as (d & Hd & Htd).
  exists d. split; [done|]. by rewrite makeChunks_lookup, Hd.
Qed.

Lemma survivors_length titles ds :
  Forall2 (fun t d => noteDetails t = Ok d) titles ds ->
  length (makeChunks turndown ds)
  = length (List.filter (survives noteDetails) titles).
Proof.
  intros Hds. rewrite makeChunks_length.
  symmetry. by eapply Forall2_length, survivors_details.
Qed.

End IndexNotesRuns.

Lemma filter_sublist {A} (f : A -> bool) (l : list A) :
  sublist (List.filter f l) l.
Proof.
  induction l as [|a l IH]; simpl; [constructor|].
  destruct (f a); by constructor.
Qed.

(** C1: when the fetch of exactly one title throws and all the others
    succeed, [indexNotes] does not return a report with the others
    indexed and one error line: its promise is rejected with the error
    of that fetch, and the table receives no call.  The [catch] around
    the call of the [async] function sees no rejection. *)
Theorem failed_fetch_rejects_whole_run
    (noteDetails : string -> Result Note.t)
    (turndown : string -> Result string)
    (got : option (list string)) (table : string) (w : Store)
    (t : string) (e : Error) :
  t ∈ default [] got ->
  noteDetails t = Throw e ->
  (forall t', t' ∈ default [] got -> t' <> t ->
     exists d, noteDetails t' = Ok d) ->
  indexNotes (Ok got) noteDetails turndown table w = (Throw e, w).
Proof.
  intros Hin Ht Hothers.
  destruct (indexNotes_failed_fetch noteDetails turndown got table w t e
              Hin Ht) as (t' & e' & Hin' & Ht' & ->).
  destruct (decide (t' = t)) as [->|Hne]; [congruence|].
  destruct (Hothers t' Hin' Hne) as [d Hd]. congruence.
Qed.

Lemma failed_fetch_rejects_whole_run_witness :
  "Broken" ∈ ["A"; "Broken"; "B"]
  /\ Examples.details "Broken" = Throw (mkError "boom")
  /\ indexNotes (Ok (Some ["A"; "Broken"; "B"])) Examples.details
       Examples.normalizer "notes" Examples.ready
     = (Throw (mkError "boom"), Examples.ready).
Proof.
  assert (Hin : "Broken" ∈ ["A"; "Broken"; "B"]) by (right; left).
  split; [exact Hin|]. split; [reflexivity|].
  apply (failed_fetch_rejects_whole_run Examples.details Examples.normalizer
           (Some ["A"; "Broken"; "B"]) "notes" Examples.ready "Broken"
           (mkError "boom") Hin eq_refl).
  intros t' Ht' Hne. apply list_elem_of_In in Ht'. simpl in Ht'.
  destruct Ht' as [<-|[<-|[<-|[]]]]; [eexists; reflexivity|done|
                                        eexists; reflexivity].
Defined.

(** The run of the example: the fetch of Broken throws, and neither A
    nor B reaches the table. *)
Example index_A_Broken_B :
  indexNotes (Ok (Some ["A"; "Broken"; "B"])) Examples.details
    Examples.normalizer "notes" Examples.ready
  = (Throw (mkError "boom"), Examples.ready).
Proof. reflexivity. Qed.

(** C3: when every detail is fetched, the one bulk insert of the run
    receives one chunk for each title whose detail has a non-empty
    title, in the order of the input titles (the surviving titles are a
    subsequence of the input); the chunk at position [i] has the id
    [toString i] and the title and dates of the detail of the [i]-th
    surviving title. *)
Theorem chunks_follow_title_order
    (noteDetails : string -> Result Note.t)
    (turndown : string -> Result string)
    (got : option (list string)) (table : string) (w : Store) :
  let titles := default [] got in
  let survivors := List.filter (survives noteDetails) titles in
  (forall t, t ∈ titles -> exists d, noteDetails t = Ok d) ->
  exists chunks,
    calls (indexNotes (Ok got) noteDetails turndown table w).2
    = (calls w ++ [Add table chunks])%list
    /\ sublist survivors titles
    /\ length chunks = length survivors
    /\ forall i t, survivors !! i = Some t ->
         exists c d,
           chunks !! i = Some c /\ noteDetails t = Ok d
           /\ Chunk.id c = toString i
           /\ Chunk.title c = Note.title d
           /\ Chunk.creation_date c = Note.creation_date d
           /\ Chunk.modification_date c = Note.modification_date d.
Proof.
  intros titles survivors Hall.
  destruct (indexNotes_completed noteDetails turndown got table w Hall)
    as (ds & Hds & Hrun).
  exists (makeChunks turndown ds). repeat split.
  - rewrite Hrun. pose proof (add_calls table (makeChunks turndown ds) w) as Hc.
    by destruct (add table _ w) as [[[]|e] w'].
  - apply filter_sublist.
  - by apply survivors_length.
  - intros i t Hi.
    destruct (survivor_chunk noteDetails turndown _ _ _ _ Hds Hi)
      as (d & Hd & Hc).
    exists (toChunk i (normalizeNode turndown d)), d. simpl.
    rewrite normalizeNode_title.
    destruct (normalizeNode_dates turndown d) as [-> ->]. done.
Qed.

Lemma details_fetched :
  forall t, t ∈ ["A"; "Gone"; "B"] -> exists d, Examples.details t = Ok d.
Proof.
  intros t Ht. apply list_elem_of_In in Ht. simpl in Ht.
  destruct Ht as [<-|[<-|[<-|[]]]]; eexists; reflexivity.
Defined.

Lemma chunks_follow_title_order_witness :
  (forall t, t ∈ ["A"; "Gone"; "B"] -> exists d, Examples.details t = Ok d)
  /\ exists chunks,
       calls (indexNotes (Ok (Some ["A"; "Gone"; "B"])) Examples.details
                Examples.normalizer "notes" Examples.ready).2
       = (calls Examples.ready ++ [Add "notes" chunks])%list
       /\ sublist (List.filter (survives Examples.details) ["A"; "Gone"; "B"])
            ["A"; "Gone"; "B"]
       /\ length chunks
          = length (List.filter (survives Examples.details) ["A"; "Gone"; "B"])
       /\ forall i t,
            List.filter (survives Examples.details) ["A"; "Gone"; "B"] !! i
            = Some t ->
            exists c d,
              chunks !! i = Some c /\ Examples.details t = Ok d
              /\ Chunk.id c = toString i
              /\ Chunk.title c = Note.title d
              /\ Chunk.creation_date c = Note.creation_date d
              /\ Chunk.modification_date c = Note.modification_date d.
Proof.
  split; [exact details_fetched|].
  exact (chunks_follow_title_order Examples.details Examples.normalizer
           (Some ["A"; "Gone"; "B"]) "notes" Examples.ready details_fetched).
Defined.

(** C4: when every detail is fetched and the table exists, the run
    returns its report and the table receives one chunk for each detail
    with a non-empty title, whatever the normalizer does: where it
    throws, the chunk has the content of the detail as it was fetched,
    and where it answers, the chunk has the normalized text. *)
Theorem normalizer_failure_keeps_document
    (noteDetails : string -> Result Note.t)
    (turndown : string -> Result string)
    (got : option (list string)) (table : string) (w : Store)
    (tbl : Table.t) :
  let titles := default [] got in
  let survivors := List.filter (survives noteDetails) titles in
  (forall t, t ∈ titles -> exists d, noteDetails t = Ok d) ->
  tables w !! table = Some tbl ->
  exists chunks w',
    indexNotes (Ok got) noteDetails turndown table w
    = (Ok (IndexReport.mk (length survivors) EmptyString (length titles)), w')
    /\ calls w' = (calls w ++ [Add table chunks])%list
    /\ tables w' !! table
       = Some (Table.mk (Table.rows tbl ++ chunks) (Table.indices tbl))
    /\ length chunks = length survivors
    /\ forall i t, survivors !! i = Some t ->
         exists c d,
           chunks !! i = Some c /\ noteDetails t = Ok d
           /\ Chunk.title c = Note.title d
           /\ Chunk.content c
              = match turndown (or_string (Note.content d) EmptyString) with
                | Ok text => Some text
                | Throw _ => Note.content d
                end.
Proof.
  intros titles survivors Hall Htbl.
  destruct (indexNotes_completed noteDetails turndown got table w Hall)
    as (ds & Hds & Hrun).
  rewrite (add_ok _ _ _ _ Htbl) in Hrun.
  rewrite (survivors_length noteDetails turndown _ _ Hds) in Hrun.
  eexists (makeChunks turndown ds), _. split; [exact Hrun|]. simpl.
  split; [done|]. split; [by rewrite lookup_insert_eq|].
  split; [by apply survivors_length|].
  intros i t Hi.
  destruct (survivor_chunk noteDetails turndown _ _ _ _ Hds Hi)
    as (d & Hd & Hc).
  exists (toChunk i (normalizeNode turndown d)), d. simpl.
  rewrite normalizeNode_title. repeat split; try done.
  unfold normalizeNode. by destruct (turndown _).
Qed.

Lemma ready_has_notes :
  tables Examples.ready !! "notes"
  = Some (Table.mk [] [Index.mk "content_idx" "content"]).
Proof. reflexivity. Defined.

Lemma normalizer_failure_keeps_document_witness :
  (forall t, t ∈ ["A"; "Gone"; "B"] -> exists d, Examples.details t = Ok d)
  /\ tables Examples.ready !! "notes"
     = Some (Table.mk [] [Index.mk "content_idx" "content"])
  /\ exists chunks w',
       indexNotes (Ok (Some ["A"; "Gone"; "B"])) Examples.details
         Examples.normalizer "notes" Examples.ready
       = (Ok (IndexReport.mk
                (length (List.filter (survives Examples.details)
                           ["A"; "Gone"; "B"]))
                EmptyString (length ["A"; "Gone"; "B"])), w')
       /\ calls w' = (calls Examples.ready ++ [Add "notes" chunks])%list
       /\ tables w' !! "notes"
          = Some (Table.mk ([] ++ chunks) [Index.mk "content_idx" "content"])
       /\ length chunks
          = length (List.filter (survives Examples.details) ["A"; "Gone"; "B"])
       /\ forall i t,
            List.filter (survives Examples.details) ["A"; "Gone"; "B"] !! i
            = Some t ->
            exists c d,
              chunks !! i = Some c /\ Examples.details t = Ok d
              /\ Chunk.title c = Note.title d
              /\ Chunk.content c
                 = match Examples.normalizer
                           (or_string (Note.content d) EmptyString) with
                   | Ok text => Some text
                   | Throw _ => Note.content d
                   end.
Proof.
  split; [exact details_fetched|]. split; [exact ready_has_notes|].
  exact (normalizer_failure_keeps_document Examples.details
           Examples.normalizer (Some ["A"; "Gone"; "B"]) "notes"
           Examples.ready _ details_fetched ready_has_notes).
Defined.

(** The run of the example: the normalizer throws on the content of B,
    and B is indexed with the content it was fetched with. *)
Example index_A_Gone_B :
  exists w',
    indexNotes (Ok (Some ["A"; "Gone"; "B"])) Examples.details
      Examples.normalizer "notes" Examples.ready
    = (Ok (IndexReport.mk 2 EmptyString 3), w')
    /\ Table.rows <$> tables w' !! "notes"
       = Some [ Chunk.mk "0" (Some "A") (Some "md:<p>A</p>")
                  (Some "2023-01-01") (Some "2023-01-02");
                Chunk.mk "1" (Some "B") (Some "<p>B</p>")
                  (Some "2023-01-01") (Some "2023-01-02") ].
Proof.
  exists (indexNotes (Ok (Some ["A"; "Gone"; "B"])) Examples.details
            Examples.normalizer "notes" Examples.ready).2.
  split; vm_compute; reflexivity.
Qed.

(** C8, as the code has it: a listing that is missing ([null] or
    [undefined]) is an empty list of titles, and the run, on a table
    that exists, returns the report with [allNotes = 0] and
    [chunks = 0] after a bulk insert of no chunk; a listing that fails
    is not absorbed: the run is rejected with the error of the listing
    and the table receives no call. *)
Theorem missing_listing_indexes_nothing
    (noteDetails : string -> Result Note.t)
    (turndown : string -> Result string)
    (table : string) (w : Store) (tbl : Table.t) :
  tables w !! table = Some tbl ->
  (exists w',
     indexNotes (Ok None) noteDetails turndown table w
     = (Ok (IndexReport.mk 0 EmptyString 0), w')
     /\ calls w' = (calls w ++ [Add table []])%list
     /\ tables w' !! table = Some tbl)
  /\ (forall e,
        indexNotes (Throw e) noteDetails turndown table w = (Throw e, w)).
Proof.
  intros Htbl. split.
  - rewrite indexNotes_run. simpl. rewrite (add_ok _ _ _ _ Htbl).
    eexists. split; [reflexivity|]. simpl. split; [done|].
    rewrite lookup_insert_eq, app_nil_r. by destruct tbl.
  - intros e. by rewrite indexNotes_run.
Qed.

Lemma missing_listing_indexes_nothing_witness :
  tables Examples.ready !! "notes"
  = Some (Table.mk [] [Index.mk "content_idx" "content"])
  /\ (exists w',
        indexNotes (Ok None) Examples.details Examples.normalizer "notes"
          Examples.ready
        = (Ok (IndexReport.mk 0 EmptyString 0), w')
        /\ calls w' = (calls Examples.ready ++ [Add "notes" []])%list
        /\ tables w' !! "notes"
           = Some (Table.mk [] [Index.mk "content_idx" "content"]))
  /\ (forall e,
        indexNotes (Throw e) Examples.details Examples.normalizer "notes"
          Examples.ready
        = (Throw e, Examples.ready)).
Proof.
  split; [exact ready_has_notes|].
  exact (missing_listing_indexes_nothing Examples.details Examples.normalizer
           "notes" Examples.ready _ ready_has_notes).
Defined.

(** C8, as the claim has it, fails: when the listing of the titles
    throws, [indexNotes] returns no report; its promise is rejected with
    that error. *)
Lemma failed_listing_rejects_run :
  indexNotes (Throw (mkError "osascript: Notes got an error"))
    Examples.details Examples.normalizer "notes" Examples.ready
  = (Throw (mkError "osascript: Notes got an error"), Examples.ready)
  /\ ~ exists r w',
         indexNotes (Throw (mkError "osascript: Notes got an error"))
           Examples.details Examples.normalizer "notes" Examples.ready
         = (Ok r, w')
         /\ IndexReport.allNotes r = 0 /\ IndexReport.chunks r = 0.
Proof.
  split; [reflexivity|]. intros (r & w' & H & _). discriminate H.
Qed.

Lemma add_titled table records w :
  Forall titled records -> store_titled w ->
  store_titled (add table records w).2.
Proof.
  intros Hrec Hw name t. unfold add. simpl.
  destruct (tables w !! table) as [t0|] eqn:E0; simpl; [|apply Hw].
  destruct (decide (table = name)) as [->|Hne].
  - rewrite lookup_insert_eq. intros [= <-]. simpl.
    apply Forall_app. split; [by eapply Hw|done].
  - rewrite lookup_insert_ne by done. apply Hw.
Qed.

(** C9: on every run, whatever the Document Source and the normalizer
    do, every chunk of every bulk insert that the run makes has a
    non-empty title, so a store whose rows all have one keeps that
    property; and a run that returns its report has
    [chunks <= allNotes]. *)
Theorem chunks_titled_and_counted
    (listTitles : Result (option (list string)))
    (noteDetails : string -> Result Note.t)
    (turndown : string -> Result string)
    (table : string) (w : Store) :
  let run := indexNotes listTitles noteDetails turndown table w in
  (exists new,
     calls run.2 = (calls w ++ new)%list
     /\ forall tb cs, Add tb cs ∈ new -> Forall titled cs)
  /\ (store_titled w -> store_titled run.2)
  /\ (forall r, run.1 = Ok r ->
        IndexReport.chunks r <= IndexReport.allNotes r).
Proof.
  intros run. subst run. rewrite indexNotes_run.
  assert (Hnil : exists new : list Call,
             calls w = (calls w ++ new)%list
             /\ forall tb cs, Add tb cs ∈ new -> Forall titled cs).
  { exists []. split; [by rewrite app_nil_r|]. intros tb cs H.
    by apply elem_of_nil in H. }
  destruct listTitles as [got|e]; simpl; [|by repeat split].
  pose proof (Promise_all_settle noteDetails (default [] got)) as Hp.
  destruct (Promise_all _) as [ds|e]; simpl; [|by repeat split].
  pose proof (add_calls table (makeChunks turndown ds) w) as Hc.
  pose proof (add_titled table (makeChunks turndown ds) w
                (makeChunks_titled turndown ds)) as Ht.
  assert (Hle : length (makeChunks turndown ds) <= length (default [] got)).
  { rewrite makeChunks_length, (Forall2_length _ _ _ Hp).
    apply filter_length_le. }
  destruct (add table _ w) as [[[]|e] w']; simpl in *.
  - split; [|split; [done|]].
    + exists [Add table (makeChunks turndown ds)]. split; [done|].
      intros tb cs H. apply list_elem_of_singleton in H. injection H as -> ->.
      apply makeChunks_titled.
    + by intros r [= <-].
  - split; [|split; [done|done]].
    exists [Add table (makeChunks turndown ds)]. split; [done|].
    intros tb cs H. apply list_elem_of_singleton in H. injection H as -> ->.
    apply makeChunks_titled.
Qed.

Lemma chunks_titled_and_counted_witness :
  (indexNotes (Ok (Some ["A"; "Gone"; "B"])) Examples.details
     Examples.normalizer "notes" Examples.ready).1
  = Ok (IndexReport.mk 2 EmptyString 3)
  /\ IndexReport.chunks (IndexReport.mk 2 EmptyString 3)
     <= IndexReport.allNotes (IndexReport.mk 2 EmptyString 3).
Proof.
  assert (H : (indexNotes (Ok (Some ["A"; "Gone"; "B"])) Examples.details
                 Examples.normalizer "notes" Examples.ready).1
              = Ok (IndexReport.mk 2 EmptyString 3))
    by (vm_compute; reflexivity).
  split; [exact H|].
  exact (proj2 (proj2 (chunks_titled_and_counted
                         (Ok (Some ["A"; "Gone"; "B"])) Examples.details
                         Examples.normalizer "notes" Examples.ready))
           _ H).
Defined.

(** C10: a run of [indexNotes] that returns its report returns the
    empty string as [report], whatever the titles and whatever the
    fetches do. *)
Theorem completed_run_report_is_empty
    (listTitles : Result (option (list string)))
    (noteDetails : string -> Result Note.t)
    (turndown : string -> Result string)
    (table : string) (w w' : Store) (r : IndexReport.t) :
  indexNotes listTitles noteDetails turndown table w = (Ok r, w') ->
  IndexReport.report r = EmptyString.
Proof.
  rewrite indexNotes_run.
  destruct listTitles as [got|e]; simpl; [|done].
  destruct (Promise_all _) as [ds|e]; simpl; [|done].
  destruct (add table _ w) as [[[]|e] w'']; [|done].
  by intros [= <- _].
Qed.

Lemma completed_run_report_is_empty_witness :
  indexNotes (Ok (Some ["A"; "Gone"; "B"])) Examples.details
    Examples.normalizer "notes" Examples.ready
  = (Ok (IndexReport.mk 2 EmptyString 3),
     (indexNotes (Ok (Some ["A"; "Gone"; "B"])) Examples.details
        Examples.normalizer "notes" Examples.ready).2)
  /\ IndexReport.report (IndexReport.mk 2 EmptyString 3) = EmptyString.
Proof.
  assert (H : indexNotes (Ok (Some ["A"; "Gone"; "B"])) Examples.details
                Examples.normalizer "notes" Examples.ready
              = (Ok (IndexReport.mk 2 EmptyString 3),
                 (indexNotes (Ok (Some ["A"; "Gone"; "B"])) Examples.details
                    Examples.normalizer "notes" Examples.ready).2))
    by (vm_compute; reflexivity).
  split; [exact H|].
  exact (completed_run_report_is_empty _ _ _ _ _ _ _ H).
Defined.

(** ** The provisioner: what a call does *)

Lemma named_spec n i : named n i = true <-> Index.name i = n.
Proof. unfold named. apply String.eqb_eq. Qed.

Lemma find_named_None n l :
  List.find (named n) l = None -> List.filter (named n) l = [].
Proof.
  induction l as [|i l IH]; simpl; [done|].
  destruct (named n i); [done|]. apply IH.
Qed.

Lemma filter_others_id n l :
  List.find (named n) l = None ->
  List.filter (fun i => negb (named n i)) l = l.
Proof.
  induction l as [|i l IH]; simpl; [done|].
  destruct (named n i); simpl; [done|]. intros H. by rewrite IH.
Qed.

Lemma named_at_most_once n l :
  NoDup (Index.name <$> l) -> length (List.filter (named n) l) <= 1.
Proof.
  induction l as [|i l IH]; simpl; [lia|].
  intros Hnd. apply NoDup_cons in Hnd as [Hnotin Hnd].
  destruct (named n i) eqn:Ei; [|by apply IH].
  apply named_spec in Ei. simpl.
  assert (Hnone : List.filter (named n) l = []).
  { destruct (List.filter (named n) l) as [|j k] eqn:Ef; [done|].
    exfalso. apply Hnotin.
    assert (Hj : In j (List.filter (named n) l)) by (rewrite Ef; by left).
    apply filter_In in Hj as [Hj Hn]. apply named_spec in Hn.
    apply list_elem_of_fmap. exists j. split; [congruence|].
    by apply list_elem_of_In. }
  rewrite Hnone. simpl. lia.
Qed.

Lemma find_named_Some n l i :
  List.find (named n) l = Some i -> 1 <= length (List.filter (named n) l).
Proof.
  induction l as [|j l IH]; simpl; [done|].
  destruct (named n j); simpl; [lia|]. apply IH.
Qed.

Section Provisioning.

Variable overrideName : option string.
Variable w : Store.

Local Abbreviation name := (tableName overrideName).

(** The table exists and lists an index named [content_idx]: the call
    opens the table, lists its indices and does no more. *)
Lemma createNotesTable_indexed t i :
  tables w !! name = Some t ->
  List.find (named "content_idx") (Table.indices t) = Some i ->
  createNotesTable overrideName w
  = (Ok name,
     mkStore (tables w)
       (calls w ++ [CreateEmptyTable name; ListIndices name])).
Proof.
  intros Ht Hi. unfold createNotesTable, bind, createEmptyTable, listIndices.
  simpl. rewrite Ht. simpl. rewrite Ht, Hi. unfold ret.
  unfold record_call. simpl. by rewrite <- app_assoc.
Qed.

(** The table exists and lists no index named [content_idx]: the call
    creates the index and leaves the rows and the other indices. *)
Lemma createNotesTable_unindexed t :
  tables w !! name = Some t ->
  List.find (named "content_idx") (Table.indices t) = None ->
  createNotesTable overrideName w
  = (Ok name,
     mkStore
       (<[name := Table.mk (Table.rows t)
                    (Table.indices t ++ [Index.mk "content_idx" "content"])]>
          (tables w))
       (calls w ++ [CreateEmptyTable name; ListIndices name;
                    CreateIndex name "content" true])).
Proof.
  intros Ht Hi. unfold createNotesTable, bind, createEmptyTable, listIndices.
  simpl. rewrite Ht. simpl. rewrite Ht, Hi.
  unfold createIndex, ret. simpl. rewrite Ht.
  change (index_name "content") with "content_idx".
  rewrite andb_false_r, (filter_others_id _ _ Hi).
  unfold set_table, record_call. simpl. by rewrite <- !app_assoc.
Qed.

(** The table does not exist: the call creates it, empty, and its
    index. *)
Lemma createNotesTable_new :
  tables w !! name = None ->
  createNotesTable overrideName w
  = (Ok name,
     mkStore
       (<[name := Table.mk [] [Index.mk "content_idx" "content"]]> (tables w))
       (calls w ++ [CreateEmptyTable name; ListIndices name;
                    CreateIndex name "content" true])).
Proof.
  intros Ht. unfold createNotesTable, bind, createEmptyTable, listIndices.
  simpl. rewrite Ht. simpl. rewrite lookup_insert_eq. simpl.
  unfold createIndex, ret. simpl. rewrite lookup_insert_eq.
  change (index_name "content") with "content_idx". simpl.
  unfold set_table, record_call. simpl.
  by rewrite insert_insert_eq, <- !app_assoc.
Qed.

End Provisioning.

Lemma find_named_new n col l :
  List.find (named n) l = None ->
  List.find (named n) (l ++ [Index.mk n col]) = Some (Index.mk n col).
Proof.
  induction l as [|i l IH]; simpl.
  - intros _. unfold named. simpl. by rewrite String.eqb_refl.
  - destruct (named n i); [done|]. apply IH.
Qed.

Lemma count_named_new n col l :
  List.find (named n) l = None ->
  length (List.filter (named n) (l ++ [Index.mk n col])) = 1.
Proof.
  intros H. rewrite List.filter_app, (find_named_None _ _ H). simpl.
  unfold named. simpl. by rewrite String.eqb_refl.
Qed.

(** C7: two calls of [createNotesTable] with the same name, on a store
    whose tables have indices of distinct names.  Both answer the table
    of that name; after the first the table exists and has exactly one
    index named [content_idx], the other tables are as they were, and a
    table that existed keeps its rows and its indices of other names;
    the second call changes no table and makes two calls on the engine,
    one that opens the table and one that lists its indices, so no index
    is created.  In general, on a table that lists an index named
    [content_idx], a call makes those two calls only. *)
Theorem provisioning_is_idempotent (overrideName : option string) (w : Store) :
  let name := tableName overrideName in
  let first := createNotesTable overrideName w in
  let second := createNotesTable overrideName first.2 in
  indices_distinct w ->
  first.1 = Ok name /\ second.1 = Ok name
  /\ (exists t, tables first.2 !! name = Some t /\ content_index_count t = 1)
  /\ tables second.2 = tables first.2
  /\ calls second.2
     = (calls first.2 ++ [CreateEmptyTable name; ListIndices name])%list
  /\ (forall other, other <> name ->
        tables first.2 !! other = tables w !! other)
  /\ (forall t, tables w !! name = Some t ->
        exists t1,
          tables first.2 !! name = Some t1
          /\ Table.rows t1 = Table.rows t
          /\ forall i, Index.name i <> "content_idx" ->
               i ∈ Table.indices t -> i ∈ Table.indices t1)
  /\ (forall w0 t0 i0,
        tables w0 !! name = Some t0 ->
        List.find (named "content_idx") (Table.indices t0) = Some i0 ->
        createNotesTable overrideName w0
        = (Ok name,
           mkStore (tables w0)
             (calls w0 ++ [CreateEmptyTable name; ListIndices name]))).
Proof.
  intros name first second Hwf.
  assert (Hgen : forall w0 t0 i0,
             tables w0 !! name = Some t0 ->
             List.find (named "content_idx") (Table.indices t0) = Some i0 ->
             createNotesTable overrideName w0
             = (Ok name,
                mkStore (tables w0)
                  (calls w0 ++ [CreateEmptyTable name; ListIndices name])))
    by (intros; by eapply createNotesTable_indexed).
  assert (Hfirst : exists t i,
             first.1 = Ok name
             /\ tables first.2 !! name = Some t
             /\ List.find (named "content_idx") (Table.indices t) = Some i
             /\ content_index_count t = 1
             /\ (forall other, other <> name ->
                   tables first.2 !! other = tables w !! other)
             /\ (forall t0, tables w !! name = Some t0 ->
                   Table.rows t = Table.rows t0
                   /\ forall i, i ∈ Table.indices t0 -> i ∈ Table.indices t)).
  { subst first. destruct (tables w !! name) as [t|] eqn:Et.
    - destruct (List.find (named "content_idx") (Table.indices t))
        as [i|] eqn:Ei.
      + rewrite (createNotesTable_indexed _ _ _ _ Et Ei). simpl.
        exists t, i. split_and!; try done.
        * unfold content_index_count.
          pose proof (named_at_most_once "content_idx" _ (Hwf _ _ Et)).
          pose proof (find_named_Some _ _ _ Ei). lia.
        * by intros t0 [= <-].
      + rewrite (createNotesTable_unindexed _ _ _ Et Ei). simpl.
        eexists _, _. split; [done|].
        split; [by rewrite lookup_insert_eq|]. simpl.
        split; [by apply find_named_new|].
        split; [by apply count_named_new|].
        split; [by intros other Ho; rewrite lookup_insert_ne|].
        intros t0 [= <-]. split; [done|].
        intros i Hin. apply elem_of_app. by left.
    - rewrite (createNotesTable_new _ _ Et). simpl.
      eexists _, _. split; [done|].
      split; [by rewrite lookup_insert_eq|]. simpl.
      split; [reflexivity|]. split; [reflexivity|].
      split; [by intros other Ho; rewrite lookup_insert_ne|].
      done. }
  destruct Hfirst as (t & i & Hr1 & Ht & Hi & Hcount & Hother & Hkeep).
  subst second. rewrite (Hgen _ _ _ Ht Hi). simpl.
  split_and!; try done.
  - by exists t.
  - intros t0 Ht0. destruct (Hkeep _ Ht0) as [Hrows Hidx].
    exists t. split_and!; try done. intros j _. apply Hidx.
Qed.

Lemma fresh_indices_distinct : indices_distinct Examples.fresh.
Proof.
  intros name t H. unfold Examples.fresh in H. simpl in H.
  by rewrite lookup_empty in H.
Defined.

Lemma provisioning_is_idempotent_witness :
  indices_distinct Examples.fresh
  /\ (createNotesTable None Examples.fresh).1 = Ok "notes"
  /\ (createNotesTable None (createNotesTable None Examples.fresh).2).1
     = Ok "notes"
  /\ (exists t,
        tables (createNotesTable None Examples.fresh).2 !! "notes" = Some t
        /\ content_index_count t = 1)
  /\ tables (createNotesTable None (createNotesTable None Examples.fresh).2).2
     = tables (createNotesTable None Examples.fresh).2
  /\ calls (createNotesTable None (createNotesTable None Examples.fresh).2).2
     = (calls (createNotesTable None Examples.fresh).2
          ++ [CreateEmptyTable "notes"; ListIndices "notes"])%list.
Proof.
  pose proof (provisioning_is_idempotent None Examples.fresh
                fresh_indices_distinct) as (H1 & H2 & H3 & H4 & H5 & _).
  split; [exact fresh_indices_distinct|].
  split; [exact H1|]. split; [exact H2|]. split; [exact H3|].
  split; [exact H4|exact H5].
Defined.


(** A table that has an index of another name gets the content index
    and keeps the other. *)
Example provisioning_keeps_other_index :
  let w := mkStore {[ "notes" := Table.mk [] [Index.mk "title_idx" "title"] ]} [] in
  tables (createNotesTable None w).2 !! "notes"
  = Some (Table.mk [] [Index.mk "title_idx" "title";
                       Index.mk "content_idx" "content"]).
Proof. vm_compute. reflexivity. Qed.

(** ** The hybrid search merge: deduplication *)

Lemma first_occurrences_elem t l : t ∈ first_occurrences l <-> t ∈ l.
Proof.
  induction l as [|u l IH]; simpl; [done|].
  rewrite !elem_of_cons, <- IH, list_elem_of_In, filter_In, <- list_elem_of_In.
  destruct (decide (t = u)) as [->|Hne]; [tauto|].
  apply String.eqb_neq in Hne as Hb. rewrite Hb. simpl. tauto.
Qed.

Lemma first_occurrences_snoc l t :
  first_occurrences (l ++ [t])
  = if decide (t ∈ l) then first_occurrences l
    else (first_occurrences l ++ [t])%list.
Proof.
  induction l as [|u l IH]; simpl; [done|].
  rewrite IH. destruct (decide (t ∈ l)) as [Hin|Hnin].
  - rewrite decide_True; [done|by right].
  - rewrite List.filter_app. simpl.
    destruct (decide (t = u)) as [->|Hne].
    + rewrite String.eqb_refl. simpl. rewrite app_nil_r.
      rewrite decide_True; [done|by left].
    + apply String.eqb_neq in Hne as Hb. rewrite Hb. simpl.
      rewrite decide_False; [done|]. rewrite elem_of_cons. tauto.
Qed.

Section JsMapFacts.

Context {V : Type}.
Implicit Types (m : JsMap V) (k : string) (v : V).

Lemma map_set_keys k v m :
  (map_set k v m).*1
  = if decide (k ∈ m.*1) then m.*1 else (m.*1 ++ [k])%list.
Proof.
  induction m as [|[k' v'] m IH]; csimpl; [done|].
  destruct (String.eqb_spec k' k) as [->|Hne]; csimpl.
  - rewrite decide_True; [done|by left].
  - rewrite IH. destruct (decide (k ∈ m.*1)) as [Hin|Hnin].
    + rewrite decide_True; [done|by right].
    + rewrite decide_False; [done|]. rewrite elem_of_cons.
      intros [->|?]; tauto.
Qed.

Lemma map_set_NoDup k v m : NoDup m.*1 -> NoDup (map_set k v m).*1.
Proof.
  intros Hnd. rewrite map_set_keys.
  destruct (decide (k ∈ m.*1)); [done|].
  apply NoDup_app. split_and!; [done| |apply NoDup_singleton].
  intros x Hx Hk. apply list_elem_of_singleton in Hk. by subst.
Qed.

Lemma map_set_elem k v m k0 v0 :
  NoDup m.*1 ->
  (k0, v0) ∈ map_set k v m ->
  (k0 = k /\ v0 = v) \/ (k0 <> k /\ (k0, v0) ∈ m).
Proof.
  induction m as [|[k' v'] m IH]; csimpl.
  - intros _ H. apply list_elem_of_singleton in H. injection H as -> ->.
    by left.
  - intros Hnd. apply NoDup_cons in Hnd as [Hnotin Hnd].
    destruct (String.eqb_spec k' k) as [->|Hne]; rewrite !elem_of_cons.
    + intros [H|H]; [injection H as -> ->; by left|].
      right. split; [|by right].
      intros ->. apply Hnotin. apply list_elem_of_fmap. by exists (k, v0).
    + intros [H|H].
      * injection H as -> ->. right. split; [done|]. by left.
      * destruct (IH Hnd H) as [?|[? ?]]; [by left|].
        right. split; [done|]. by right.
Qed.

Lemma new_Map_snoc (entries : list (string * V)) k v :
  new_Map (entries ++ [(k, v)]) = map_set k v (new_Map entries).
Proof. unfold new_Map. by rewrite fold_left_app. Qed.

Lemma new_Map_NoDup (entries : list (string * V)) :
  NoDup (new_Map entries).*1.
Proof.
  induction entries as [|[k v] entries IH] using rev_ind.
  - apply NoDup_nil_2.
  - rewrite new_Map_snoc. by apply map_set_NoDup.
Qed.

End JsMapFacts.

Lemma new_Map_titles (l : list Hit.t) :
  (new_Map (map titled_entry l)).*1 = first_occurrences (Hit.title <$> l).
Proof.
  induction l as [|x l IH] using rev_ind; [done|].
  rewrite map_app, fmap_app. simpl. unfold titled_entry at 2.
  rewrite new_Map_snoc, map_set_keys, first_occurrences_snoc, IH.
  destruct (decide (Hit.title x ∈ Hit.title <$> l)) as [Hin|Hnin].
  - rewrite decide_True; [done|]. by apply first_occurrences_elem.
  - rewrite decide_False; [done|]. by rewrite first_occurrences_elem.
Qed.

Lemma last_titled_snoc t l x :
  last_titled t (l ++ [x])
  = if String.eqb (Hit.title x) t then Some x else last_titled t l.
Proof. unfold last_titled. by rewrite rev_unit. Qed.

Lemma new_Map_last (l : list Hit.t) k r :
  (k, r) ∈ new_Map (map titled_entry l) ->
  Hit.title r = k /\ last_titled k l = Some r.
Proof.
  revert k r. induction l as [|x l IH] using rev_ind; intros k r.
  - intros H. by apply elem_of_nil in H.
  - rewrite map_app. simpl. unfold titled_entry at 2.
    rewrite new_Map_snoc, last_titled_snoc. intros H.
    apply map_set_elem in H; [|apply new_Map_NoDup].
    destruct H as [[-> ->]|[Hne H]].
    + by rewrite String.eqb_refl.
    + destruct (IH _ _ H) as [Ht Hl]. split; [done|].
      destruct (String.eqb_spec (Hit.title x) k); [congruence|done].
Qed.

Lemma values_titles (m : JsMap Hit.t) :
  (forall k r, (k, r) ∈ m -> Hit.title r = k) ->
  Hit.title <$> values m = m.*1.
Proof.
  induction m as [|[k r] m IH]; csimpl; [done|].
  intros H. rewrite (H k r) by by left. f_equal.
  apply IH. intros k' r' Hin. apply H. by right.
Qed.

Lemma uniqueResults_titles (l : list Hit.t) :
  Hit.title <$> uniqueResults l = first_occurrences (Hit.title <$> l).
Proof.
  unfold uniqueResults.
  rewrite values_titles; [apply new_Map_titles|].
  intros k r H. by apply new_Map_last in H as [? _].
Qed.

Lemma uniqueResults_last (l : list Hit.t) r :
  r ∈ uniqueResults l -> last_titled (Hit.title r) l = Some r.
Proof.
  unfold uniqueResults, values.
  intros H. apply list_elem_of_fmap in H as ([k r'] & -> & H). simpl.
  apply new_Map_last in H as [<- H]. done.
Qed.

(** C2: the deduplication in [searchAndCombineResults] of the semantic
    hits followed by the lexical hits.  The titles of the result are the
    titles of the concatenation, each once and at the place of its first
    occurrence, and every hit of the result is the last hit of the
    concatenation with its title.  For semantic hits [a; b] and lexical
    hits [b'; c], where [b'] has the title of [b] and the titles of [a],
    [b] and [c] differ, the result is [a; b'; c]. *)
Theorem dedup_first_position_last_content :
  (forall semantic lexical : list Hit.t,
     let allResults := (semantic ++ lexical)%list in
     Hit.title <$> uniqueResults allResults
     = first_occurrences (Hit.title <$> allResults)
     /\ forall r, r ∈ uniqueResults allResults ->
          last_titled (Hit.title r) allResults = Some r)
  /\ (forall a b b' c : Hit.t,
        Hit.title b' = Hit.title b ->
        Hit.title a <> Hit.title b ->
        Hit.title a <> Hit.title c ->
        Hit.title b <> Hit.title c ->
        uniqueResults ([a; b] ++ [b'; c]) = [a; b'; c]).
Proof.
  split.
  - intros semantic lexical allResults. split.
    + apply uniqueResults_titles.
    + apply uniqueResults_last.
  - intros a b b' c Hbb Hab Hac Hbc.
    apply String.eqb_neq in Hab, Hac, Hbc.
    unfold uniqueResults, new_Map, values. simpl.
    rewrite Hab. simpl. rewrite Hbb, Hab, String.eqb_refl. simpl.
    by rewrite Hac, Hbc.
Qed.

Lemma dedup_first_position_last_content_witness :
  uniqueResults ([Examples.hit "A" "semantic a"; Examples.hit "B" "semantic b"]
                   ++ [Examples.hit "B" "lexical b"; Examples.hit "C" "lexical c"])
  = [Examples.hit "A" "semantic a"; Examples.hit "B" "lexical b";
     Examples.hit "C" "lexical c"].
Proof.
  apply (proj2 dedup_first_position_last_content
           (Examples.hit "A" "semantic a") (Examples.hit "B" "semantic b")
           (Examples.hit "B" "lexical b") (Examples.hit "C" "lexical c"));
    simpl; [reflexivity|discriminate..].
Defined.

(** ** The hybrid search merge: rendering *)

Lemma slice_take {A} (k : nat) (l : list A) :
  slice 0 (Z.of_nat k) l = take k l.
Proof.
  unfold slice, slice_index. simpl.
  destruct (Z.ltb_spec (Z.of_nat k) 0) as [?|_]; [lia|].
  replace (Z.to_nat (Z.min 0 (Z.of_nat (length l)))) with 0 by lia.
  rewrite drop_0, Nat.sub_0_r.
  destruct (decide (k <= length l)) as [Hle|Hgt].
  - f_equal. lia.
  - replace (Z.to_nat (Z.min (Z.of_nat k) (Z.of_nat (length l))))
      with (length l) by lia.
    rewrite !take_ge by lia. done.
Qed.

(** A negative [end] counts from the end of the array. *)
Example slice_from_the_end : slice 0 (-1) [1; 2; 3] = [1; 2].
Proof. reflexivity. Qed.

Lemma renderEntry_shift s i r : renderEntry s (S i) r = renderEntry (S s) i r.
Proof. unfold renderEntry. by rewrite Nat.add_succ_r. Qed.

Lemma imap_renderEntry_cons s r l :
  imap (renderEntry s) (r :: l)
  = renderEntry s 0 r :: imap (renderEntry (S s)) l.
Proof.
  simpl. f_equal. apply imap_ext. intros i x _. apply renderEntry_shift.
Qed.

Lemma substring_prefix (n : nat) (c : string) :
  n <= String.length c ->
  exists tail,
    c = substring 0 n c +:+ tail /\ String.length (substring 0 n c) = n.
Proof.
  revert c. induction n as [|n IH]; intros c Hn.
  - exists c. by destruct c.
  - destruct c as [|a c]; simpl in Hn; [lia|].
    destruct (IH c) as (tail & Hc & Hl); [lia|].
    exists tail. split; simpl; [|by rewrite Hl].
    unfold String.append. fold String.append. by f_equal.
Qed.

(** C5: a search with the limit [k] (20 when none is given) whose two
    strategies answer.  The report is the header, with the number of
    deduplicated hits before any truncation, followed by the ranked
    entries of the first [k] deduplicated hits, so by at most [k]
    entries; when neither strategy has a hit the report is the header
    for 0 notes and nothing after it. *)
Theorem limit_bounds_ranked_entries
    (vectorSearch : string -> Z -> Result (list Hit.t))
    (search : string -> string -> Z -> Result (list Hit.t))
    (query : string) (limit : option nat)
    (semantic lexical : list Hit.t) :
  let k := default 20 limit in
  let unique := uniqueResults (semantic ++ lexical) in
  let entries := imap (renderEntry 1) (take k unique) in
  vectorSearch query (Z.of_nat k) = Ok semantic ->
  search "content" query (Z.of_nat k) = Ok lexical ->
  searchAndCombineResults vectorSearch search query (Z.of_nat <$> limit)
  = Ok ("Found " +:+ toString (length unique) +:+ " notes matching "
          +:+ dquote +:+ query +:+ dquote +:+ ":" +:+ nl +:+ nl
          +:+ join nl entries)
  /\ length entries = Nat.min k (length unique)
  /\ length entries <= k
  /\ (semantic = [] -> lexical = [] ->
      searchAndCombineResults vectorSearch search query (Z.of_nat <$> limit)
      = Ok ("Found 0 notes matching " +:+ dquote +:+ query +:+ dquote
              +:+ ":" +:+ nl +:+ nl)).
Proof.
  intros k unique entries Hs Hl.
  assert (Hk : default 20%Z (Z.of_nat <$> limit) = Z.of_nat k)
    by (subst k; by destruct limit).
  assert (Hrun :
    searchAndCombineResults vectorSearch search query (Z.of_nat <$> limit)
    = Ok ("Found " +:+ toString (length unique) +:+ " notes matching "
            +:+ dquote +:+ query +:+ dquote +:+ ":" +:+ nl +:+ nl
            +:+ join nl entries)).
  { unfold searchAndCombineResults. rewrite Hk, Hs, Hl.
    fold unique. by rewrite slice_take. }
  assert (Hlen : length entries = Nat.min k (length unique))
    by (subst entries; by rewrite length_imap, length_take).
  split_and!; [done|done|lia|].
  intros -> ->. rewrite Hrun. subst entries unique.
  change (uniqueResults ([] ++ [])) with (@nil Hit.t).
  rewrite take_nil. reflexivity.
Qed.

Lemma limit_bounds_ranked_entries_witness :
  let vectorSearch := fun (_ : string) (_ : Z) =>
    Ok [Examples.hit "A" "semantic a"; Examples.hit "B" "semantic b"] in
  let search := fun (_ _ : string) (_ : Z) =>
    Ok [Examples.hit "B" "lexical b"; Examples.hit "C" "lexical c"] in
  searchAndCombineResults vectorSearch search "q" (Some 2%Z)
  = Ok ("Found 3 notes matching " +:+ dquote +:+ "q" +:+ dquote +:+ ":"
          +:+ nl +:+ nl
          +:+ "1. **A**" +:+ nl +:+ "semantic a" +:+ nl +:+ nl
          +:+ "2. **B**" +:+ nl +:+ "lexical b" +:+ nl).
Proof.
  intros vectorSearch search.
  exact (proj1 (limit_bounds_ranked_entries vectorSearch search "q" (Some 2)
                  [Examples.hit "A" "semantic a"; Examples.hit "B" "semantic b"]
                  [Examples.hit "B" "lexical b"; Examples.hit "C" "lexical c"]
                  eq_refl eq_refl)).
Defined.

(** C6: the entries of [processResults].  The entry of the hit at
    position [i], counted from 0, is its rank [i + 1], a dot, the title
    between two pairs of stars, a line break, the snippet and a line
    break; the entries are joined by one more line break, which leaves
    an empty line between two of them; the snippet is the content when it
    has at most 300 characters, and its first 300 characters followed
    by three dots when it has more. *)
Theorem entries_are_ranked_snippets (results : list Hit.t) :
  (forall i r, results !! i = Some r ->
     imap (renderEntry 1) results !! i
     = Some (toString (i + 1) +:+ ". **" +:+ Hit.title r +:+ "**" +:+ nl
               +:+ snippet (Hit.content r) +:+ nl))
  /\ processResults results 1 = join nl (imap (renderEntry 1) results)
  /\ (forall r r' rest rank,
        processResults (r :: r' :: rest) rank
        = renderEntry rank 0 r +:+ nl +:+ processResults (r' :: rest) (S rank))
  /\ (forall c, String.length c <= 300 -> snippet c = c)
  /\ (forall c, 300 < String.length c ->
        exists head tail,
          c = head +:+ tail /\ String.length head = 300
          /\ snippet c = head +:+ "...").
Proof.
  split_and!.
  - intros i r Hi. rewrite list_lookup_imap, Hi. simpl.
    unfold renderEntry. by rewrite (Nat.add_comm 1 i).
  - reflexivity.
  - intros r r' rest rank. unfold processResults.
    rewrite imap_renderEntry_cons.
    by destruct (imap (renderEntry (S rank)) (r' :: rest)) eqn:E.
  - intros c Hc. unfold snippet.
    destruct (Nat.ltb_spec 300 (String.length c)); [lia|done].
  - intros c Hc. unfold snippet.
    destruct (Nat.ltb_spec 300 (String.length c)); [|lia].
    destruct (substring_prefix 300 c) as (tail & Heq & Hlen); [lia|].
    by exists (substring 0 300 c), tail.
Qed.

Lemma entries_are_ranked_snippets_witness :
  imap (renderEntry 1) [Examples.hit "A" "a"; Examples.hit "B" "b"] !! 1
  = Some ("2. **B**" +:+ nl +:+ "b" +:+ nl).
Proof.
  exact (proj1 (entries_are_ranked_snippets
                  [Examples.hit "A" "a"; Examples.hit "B" "b"])
           1 (Examples.hit "B" "b") eq_refl).
Defined.

(** ** The scripts: what the interpreter reads *)

Lemma append_cons a s t : String a s +:+ t = String a (s +:+ t).
Proof. reflexivity. Qed.

Lemma append_nil s : EmptyString +:+ s = s.
Proof. reflexivity. Qed.

Lemma append_nil_r s : s +:+ EmptyString = s.
Proof. induction s as [|a s IH]; [done|]. by rewrite append_cons, IH. Qed.

Lemma append_assoc (s t u : string) : (s +:+ t) +:+ u = s +:+ t +:+ u.
Proof.
  induction s as [|a s IH]; [done|]. rewrite !append_cons. by rewrite IH.
Qed.

Lemma escapeChar_app c s t :
  escapeChar c (s +:+ t) = escapeChar c s +:+ escapeChar c t.
Proof.
  induction s as [|a s IH]; [done|]. rewrite append_cons. simpl.
  destruct (Ascii.eqb a c); rewrite !append_cons, IH; done.
Qed.

Lemma escapeChar_lacks c s : lacks c s = true -> escapeChar c s = s.
Proof.
  induction s as [|a s IH]; simpl; [done|].
  destruct (Ascii.eqb a c); simpl; [done|]. intros H. by rewrite IH.
Qed.

(** A text without quote and without backslash is read as it is. *)
Lemma read_literal_plain a s :
  lacks quote_char a = true -> lacks backslash a = true ->
  read_literal (a +:+ s)
  = match read_literal s with
    | Some (body, rest) => Some (a +:+ body, rest)
    | None => None
    end.
Proof.
  induction a as [|c a IH]; simpl.
  - intros _ _. rewrite append_nil. by destruct (read_literal s) as [[??]|].
  - intros Hq Hb. apply andb_true_iff in Hq as [Hq1 Hq2].
    apply andb_true_iff in Hb as [Hb1 Hb2].
    apply negb_true_iff in Hq1, Hb1. rewrite Hq1, Hb1, IH by done.
    by destruct (read_literal s) as [[??]|].
Qed.

(** The escaped form of a text without backslash is read to its end. *)
Lemma read_literal_escaped t s :
  lacks backslash t = true ->
  read_literal (escapeChar quote_char t +:+ s)
  = match read_literal s with
    | Some (body, rest) => Some (escapeChar quote_char t +:+ body, rest)
    | None => None
    end.
Proof.
  induction t as [|c t IH]; simpl.
  - intros _. rewrite append_nil. by destruct (read_literal s) as [[??]|].
  - intros Hb. apply andb_true_iff in Hb as [Hb1 Hb2].
    apply negb_true_iff in Hb1.
    destruct (Ascii.eqb c quote_char) eqn:Eq; simpl.
    + rewrite IH by done. by destruct (read_literal s) as [[??]|].
    + rewrite Eq, Hb1, IH by done. by destruct (read_literal s) as [[??]|].
Qed.

Lemma literal_value_escaped t :
  lacks backslash t = true ->
  literal_value (escapeChar quote_char t) = t.
Proof.
  induction t as [|c t IH]; simpl; [done|].
  intros Hb. apply andb_true_iff in Hb as [Hb1 Hb2].
  apply negb_true_iff in Hb1.
  destruct (Ascii.eqb c quote_char) eqn:Eq; simpl.
  - by rewrite IH.
  - by rewrite Hb1, IH.
Qed.

Lemma read_literal_quote s : read_literal (dquote +:+ s) = Some (EmptyString, s).
Proof. reflexivity. Qed.

(** X1: in the script of [createNote], the first literal in double
    quotes is the one of the title.  For a title without backslash, the
    interpreter reads that literal up to the quote that the template
    puts after the title, whatever quotes the title has, and the literal
    stands for the title. *)
Theorem createNote_title_literal (title content : string) :
  lacks backslash title = true ->
  exists before rest,
    createNoteScript title content = before +:+ dquote +:+ rest
    /\ lacks quote_char before = true
    /\ exists after,
         read_literal rest = Some (escapeChar quote_char title, after)
         /\ literal_value (escapeChar quote_char title) = title
         /\ exists more,
              after = ";" +:+ nl +:+ "      const content = `" +:+ more.
Proof.
  intros Hb.
  exists (nl +:+ "      const app = Application('Notes');" +:+ nl
            +:+ "      app.includeStandardAdditions = true;" +:+ nl
            +:+ "      " +:+ nl +:+ "      const title = ").
  eexists. split; [reflexivity|]. split; [reflexivity|].
  eexists. split; [|split; [by apply literal_value_escaped|]].
  - rewrite read_literal_escaped, read_literal_quote by done.
    by rewrite append_nil_r.
  - eexists. reflexivity.
Qed.

Lemma createNote_title_literal_witness :
  lacks backslash ("say " +:+ dquote +:+ "hi" +:+ dquote) = true
  /\ exists before rest,
       createNoteScript ("say " +:+ dquote +:+ "hi" +:+ dquote) "<p>x</p>"
       = before +:+ dquote +:+ rest
       /\ lacks quote_char before = true
       /\ exists after,
            read_literal rest
            = Some (escapeChar quote_char ("say " +:+ dquote +:+ "hi" +:+ dquote),
                    after)
            /\ literal_value
                 (escapeChar quote_char ("say " +:+ dquote +:+ "hi" +:+ dquote))
               = "say " +:+ dquote +:+ "hi" +:+ dquote
            /\ exists more,
                 after = ";" +:+ nl +:+ "      const content = `" +:+ more.
Proof.
  split; [reflexivity|].
  exact (createNote_title_literal ("say " +:+ dquote +:+ "hi" +:+ dquote)
           "<p>x</p>" eq_refl).
Defined.

Lemma lacks_app c s t : lacks c (s +:+ t) = lacks c s && lacks c t.
Proof.
  induction s as [|a s IH]; [done|]. rewrite append_cons. simpl.
  by rewrite IH, andb_assoc.
Qed.

Lemma append_length s t :
  String.length (s +:+ t) = String.length s + String.length t.
Proof.
  induction s as [|a s IH]; [done|]. rewrite append_cons. simpl. by rewrite IH.
Qed.

(** X2: [createNote] escapes the quotes of the title and not its
    backslashes.  For a title that has a backslash just before a quote,
    after a part without either, the interpreter reads the literal of
    the title only up to that quote: the literal is the first part and
    two backslashes, and the rest of the title is read as text of the
    script. *)
Theorem createNote_backslash_closes_literal (a b content : string) :
  lacks backslash a = true ->
  lacks quote_char a = true ->
  exists before rest,
    createNoteScript (a +:+ String backslash (String quote_char b)) content
    = before +:+ dquote +:+ rest
    /\ lacks quote_char before = true
    /\ exists more,
         read_literal rest
         = Some (a +:+ String backslash (String backslash EmptyString),
                 escapeChar quote_char b +:+ dquote +:+ more).
Proof.
  intros Hb Hq.
  exists (nl +:+ "      const app = Application('Notes');" +:+ nl
            +:+ "      app.includeStandardAdditions = true;" +:+ nl
            +:+ "      " +:+ nl +:+ "      const title = ").
  eexists. split; [reflexivity|]. split; [reflexivity|]. eexists.
  rewrite escapeChar_app, (escapeChar_lacks _ _ Hq). simpl.
  rewrite append_assoc, read_literal_plain by done.
  rewrite !append_cons. simpl. reflexivity.
Qed.

Lemma createNote_backslash_closes_literal_witness :
  lacks backslash "x" = true /\ lacks quote_char "x" = true
  /\ exists before rest,
       createNoteScript
         ("x" +:+ String backslash (String quote_char "; doShellScript()//"))
         "c"
       = before +:+ dquote +:+ rest
       /\ lacks quote_char before = true
       /\ exists more,
            read_literal rest
            = Some ("x" +:+ String backslash (String backslash EmptyString),
                    escapeChar quote_char "; doShellScript()//" +:+ dquote
                      +:+ more).
Proof.
  split; [reflexivity|]. split; [reflexivity|].
  exact (createNote_backslash_closes_literal "x" "; doShellScript()//" "c"
           eq_refl eq_refl).
Defined.

(** X3: [getNoteDetailsByTitle] puts the title in its script as it is.
    The first literal in double quotes of the script is the one of the
    title; for a title without backslash it stands for the title when
    the title has no quote, and it stops at the first quote of the
    title when it has one, so that the script names another note. *)
Theorem noteDetails_title_literal (title : string) :
  lacks backslash title = true ->
  exists before rest,
    noteDetailsScript title = before +:+ dquote +:+ rest
    /\ lacks quote_char before = true
    /\ (lacks quote_char title = true ->
        exists after, read_literal rest = Some (title, after))
    /\ (forall a b,
          title = a +:+ dquote +:+ b -> lacks quote_char a = true ->
          a <> title
          /\ exists after, read_literal rest = Some (a, after)).
Proof.
  intros Hb.
  exists ("const app = Application('Notes');" +:+ nl
            +:+ "    const title = ").
  eexists. split; [reflexivity|]. split; [reflexivity|]. split.
  - intros Hq. eexists.
    rewrite read_literal_plain, read_literal_quote by done.
    by rewrite append_nil_r.
  - intros a b -> Hq. split.
    + intros Heq. apply (f_equal String.length) in Heq.
      rewrite !append_length in Heq. simpl in Heq. lia.
    + rewrite lacks_app in Hb. apply andb_true_iff in Hb as [Hba _].
      eexists. rewrite append_assoc, read_literal_plain by done.
      rewrite append_assoc, read_literal_quote. by rewrite append_nil_r.
Qed.

Lemma noteDetails_title_literal_witness :
  lacks backslash ("5" +:+ dquote +:+ " nails") = true
  /\ exists before rest,
       noteDetailsScript ("5" +:+ dquote +:+ " nails")
       = before +:+ dquote +:+ rest
       /\ lacks quote_char before = true
       /\ (lacks quote_char ("5" +:+ dquote +:+ " nails") = true ->
           exists after,
             read_literal rest = Some ("5" +:+ dquote +:+ " nails", after))
       /\ (forall a b,
             "5" +:+ dquote +:+ " nails" = a +:+ dquote +:+ b ->
             lacks quote_char a = true ->
             a <> "5" +:+ dquote +:+ " nails"
             /\ exists after, read_literal rest = Some (a, after)).
Proof.
  split; [reflexivity|].
  exact (noteDetails_title_literal ("5" +:+ dquote +:+ " nails") eq_refl).
Defined.

(** ** The embedding function *)

(** X4: the embeddings of a batch are the query embeddings of its
    items.  When the extractor answers on every item,
    [computeSourceEmbeddings] is fulfilled with one vector for each
    item, in the order of the items, and the vector at a position is the
    one [computeQueryEmbeddings] is fulfilled with on the item at that
    position; when the extractor throws on an item, the whole batch is
    rejected. *)
Theorem source_embeddings_are_query_embeddings
    (Vector : Type) (extractor : string -> Result Vector)
    (data : list string) :
  ((forall item, item ∈ data -> exists v, extractor item = Ok v) ->
   exists vs,
     computeSourceEmbeddings Vector extractor data = Ok (Fulfilled vs)
     /\ length vs = length data
     /\ forall i item, data !! i = Some item ->
          exists v,
            vs !! i = Some v
            /\ computeQueryEmbeddings Vector extractor item
               = Ok (Fulfilled v))
  /\ (forall item e, item ∈ data -> extractor item = Throw e ->
        exists item' e',
          item' ∈ data /\ extractor item' = Throw e'
          /\ computeSourceEmbeddings Vector extractor data
             = Ok (Rejected e')).
Proof.
  unfold computeSourceEmbeddings, computeQueryEmbeddings, async.
  pose proof (Promise_all_settle extractor data) as H.
  destruct (Promise_all _) as [vs|e']; simpl; split.
  - intros _. exists vs. split; [done|].
    split; [symmetry; by eapply Forall2_length|].
    intros i item Hi. destruct (Forall2_lookup_l _ _ _ _ _ H Hi) as (v & Hv & Hx).
    exists v. by rewrite Hx.
  - intros item e Hin He. apply list_elem_of_lookup in Hin as [i Hi].
    destruct (Forall2_lookup_l _ _ _ _ _ H Hi) as (v & _ & Hx). congruence.
  - intros Hall. destruct H as (item & Hin & He).
    destruct (Hall item Hin) as [v Hv]. congruence.
  - intros _ _ _ _. destruct H as (item & Hin & He). by exists item, e'.
Qed.

Lemma source_embeddings_are_query_embeddings_witness :
  (forall item, item ∈ ["note"; "memo text"] ->
     exists v, Fixtures.extractor item = Ok v)
  /\ exists vs,
       computeSourceEmbeddings nat Fixtures.extractor ["note"; "memo text"]
       = Ok (Fulfilled vs)
       /\ length vs = length ["note"; "memo text"]
       /\ forall i item, ["note"; "memo text"] !! i = Some item ->
            exists v,
              vs !! i = Some v
              /\ computeQueryEmbeddings nat Fixtures.extractor item
                 = Ok (Fulfilled v).
Proof.
  assert (H : forall item, item ∈ ["note"; "memo text"] ->
                exists v, Fixtures.extractor item = Ok v).
  { intros item Hin. apply list_elem_of_In in Hin. simpl in Hin.
    destruct Hin as [<-|[<-|[]]]; eexists; reflexivity. }
  split; [exact H|].
  exact (proj1 (source_embeddings_are_query_embeddings nat Fixtures.extractor
                  ["note"; "memo text"]) H).
Defined.

(** ** Creating a note *)


(** ** The handler of the tools: every call is answered *)

Lemma returns_only_ret P r : P r -> returns_only P (ret r).
Proof. intros H w r' w' [= <- _]. done. Qed.

Lemma returns_only_bind {A} P (m : M A) k :
  (forall a, returns_only P (k a)) -> returns_only P (bind m k).
Proof.
  intros H w r w'. unfold bind. destruct (m w) as [[a|e] w1]; [|done].
  apply H.
Qed.

Lemma returns_only_if P (b : bool) m1 m2 :
  returns_only P m1 -> returns_only P m2 ->
  returns_only P (if b then m1 else m2).
Proof. by destruct b. Qed.

(** A [try] whose [catch] returns a response always returns one. *)
Lemma try_catch_answers P body (g : Error -> Response.t) :
  returns_only P body -> (forall e, P (g e)) ->
  forall w, exists r w',
    try_catch_M body (fun e => ret (g e)) w = (Ok r, w') /\ P r.
Proof.
  intros Hbody Hg w. unfold try_catch_M.
  destruct (body w) as [[r|e] w1] eqn:E.
  - exists r, w1. split; [done|]. by eapply Hbody.
  - exists (g e), w1. split; [done|]. apply Hg.
Qed.

Lemma searchAndCombineResults_found vs ft query limit text :
  searchAndCombineResults vs ft query limit = Ok text ->
  handled (createTextResponse text).
Proof.
  unfold searchAndCombineResults.
  destruct (vs _ _) as [sem|e]; [|done].
  destruct (ft _ _ _) as [lex|e]; [|done].
  intros [= <-]. by split.
Qed.

Section CallTool.

Variable listTitles : Result (option (list string)).
Variable noteDetails : string -> Result Note.t.
Variable turndown : string -> Result string.
Variable engineVectorSearch :
  list Chunk.t -> string -> Z -> Result (list Hit.t).
Variable engineSearch :
  list Chunk.t -> string -> string -> Z -> Result (list Hit.t).
Variable runJxa : string -> Result string.
Variable JSON_parse : string -> Result CreateResult.t.
Variable typeError : string -> Error.
Variable zodError : string -> option (gmap string JsValue) -> Error.
Variable indexTime : nat.

Lemma listNotesTool_answers w :
  exists r w', listNotesTool listTitles typeError w = (Ok r, w') /\ handled r.
Proof.
  apply try_catch_answers; [|by split].
  do 3 (apply returns_only_bind; intros ?).
  apply returns_only_ret. by split.
Qed.

Lemma indexNotesTool_answers w :
  exists r w',
    indexNotesTool listTitles noteDetails turndown indexTime w = (Ok r, w')
    /\ handled r.
Proof.
  apply try_catch_answers; [|by split].
  do 2 (apply returns_only_bind; intros ?).
  apply returns_only_ret. by split.
Qed.

Lemma getNoteTool_answers parameters w :
  exists r w',
    getNoteTool noteDetails turndown zodError parameters w = (Ok r, w')
    /\ handled r.
Proof.
  apply try_catch_answers; [|by split].
  do 3 (apply returns_only_bind; intros ?).
  apply returns_only_if; [apply returns_only_ret; by split|].
  apply returns_only_bind; intros ?. apply returns_only_ret. by split.
Qed.

Lemma searchNotesTool_answers parameters w :
  exists r w',
    searchNotesTool engineVectorSearch engineSearch zodError parameters w
    = (Ok r, w')
    /\ handled r.
Proof.
  apply try_catch_answers; [|by split].
  do 2 (apply returns_only_bind; intros ?).
  intros w0 r w'. unfold bind, ret.
  destruct (searchAndCombineResults _ _ _ _) as [text|e] eqn:E; [|done].
  intros [= <- _]. by eapply searchAndCombineResults_found.
Qed.

Lemma createNoteTool_answers parameters w :
  exists r w',
    createNoteTool runJxa JSON_parse typeError parameters w = (Ok r, w')
    /\ handled r.
Proof.
  apply (try_catch_answers handled _
           (fun _ => createTextResponse
              "Failed to create note. Please check your Apple Notes configuration."));
    [|by split].
  do 2 (apply returns_only_bind; intros ?).
  apply returns_only_if; apply returns_only_ret; by split.
Qed.

Lemma name_is_listed (n : string) :
  n ∈ Tool.name <$> listTools ->
  n = "list-notes" \/ n = "index-notes" \/ n = "get-note"
  \/ n = "search-notes" \/ n = "create-note".
Proof.
  intros H. apply list_elem_of_In in H. simpl in H.
  destruct H as [<-|[<-|[<-|[<-|[<-|[]]]]]]; tauto.
Qed.

(** X6: the handler of the tools never throws and always answers a
    response of type [text].  For a name that the list of tools
    advertises, the answer is never the message of an unknown tool; for
    any other name, and for no name, it is [Unknown tool: ] followed by
    the name, and the store is left as it was. *)
Theorem callTool_answers_every_request (request : Request.t) (w : Store) :
  exists r w',
    callTool listTitles noteDetails turndown engineVectorSearch engineSearch
      runJxa JSON_parse typeError zodError indexTime request w
    = (Ok r, w')
    /\ Response.type r = "text"
    /\ ((exists n, Request.name request = Some n
                   /\ n ∈ Tool.name <$> listTools) ->
        handled r)
    /\ ((forall n, Request.name request = Some n ->
                   n ∉ Tool.name <$> listTools) ->
        r = createTextResponse
              ("Unknown tool: " +:+ template (Request.name request))
        /\ w' = w).
Proof.
  assert (Hlisted : forall n, n ∈ Tool.name <$> listTools ->
            Request.name request = Some n ->
            exists r w',
              callTool listTitles noteDetails turndown engineVectorSearch
                engineSearch runJxa JSON_parse typeError zodError indexTime
                request w
              = (Ok r, w')
              /\ handled r).
  { intros n Hn Hname. unfold callTool. rewrite Hname.
    destruct (name_is_listed n Hn) as [->|[->|[->|[->| ->]]]]; simpl.
    - apply listNotesTool_answers.
    - apply indexNotesTool_answers.
    - apply getNoteTool_answers.
    - apply searchNotesTool_answers.
    - apply createNoteTool_answers. }
  destruct (Request.name request) as [n|] eqn:Hname.
  - destruct (decide (n ∈ Tool.name <$> listTools)) as [Hin|Hnin].
    + destruct (Hlisted n Hin eq_refl) as (r & w' & Hrun & Hh).
      exists r, w'. split; [done|]. split; [apply Hh|].
      split; [done|]. intros Hno. by destruct (Hno n eq_refl).
    + eexists _, w. unfold callTool. rewrite Hname. simpl.
      assert (Hne : forall t, t ∈ Tool.name <$> listTools ->
                      String.eqb n t = false).
      { intros t Ht. apply String.eqb_neq. by intros ->. }
      rewrite !Hne by (apply list_elem_of_In; simpl; tauto).
      split; [done|]. split; [done|].
      split; [|done]. intros (n' & [= <-] & Hin). done.
  - eexists _, w. unfold callTool. rewrite Hname. simpl.
    split; [done|]. split; [done|]. split; [|done].
    intros (n & Hn & _). done.
Qed.

End CallTool.

(** ** The tool that indexes *)

Lemma Promise_all_fetched {A B} (f : A -> Result B) l ds :
  Forall2 (fun a d => f a = Ok d) l ds ->
  Promise_all (map (fun a => settle (f a)) l) = Fulfilled ds.
Proof.
  induction 1 as [|a d l ds Ha _ IH]; simpl; [done|]. by rewrite Ha, IH.
Qed.

Lemma makeChunks_ids turndown ds :
  Chunk.id <$> makeChunks turndown ds
  = toString <$> seq 0 (length (makeChunks turndown ds)).
Proof.
  apply list_eq. intros i. rewrite !list_lookup_fmap, makeChunks_lookup.
  rewrite makeChunks_length.
  destruct (List.filter _ ds !! i) as [n|] eqn:E; simpl.
  - apply lookup_lt_Some in E. by rewrite lookup_seq_lt.
  - apply lookup_ge_None in E. by rewrite lookup_seq_ge.
Qed.

Lemma makeChunks_ids_NoDup turndown ds :
  NoDup (Chunk.id <$> makeChunks turndown ds).
Proof.
  rewrite makeChunks_ids. apply NoDup_fmap_2; [|apply NoDup_seq].
  intros m n. apply toString_inj.
Qed.

(** What a call of the provisioner leaves: the table, with the rows it
    had, and an index named [content_idx]; the other tables as they
    were. *)
Lemma createNotesTable_outcome overrideName w :
  exists t1 w1,
    createNotesTable overrideName w = (Ok (tableName overrideName), w1)
    /\ tables w1 !! tableName overrideName = Some t1
    /\ Table.rows t1 = rows_of (tableName overrideName) w
    /\ (exists i,
          List.find (named "content_idx") (Table.indices t1) = Some i)
    /\ (forall other, other <> tableName overrideName ->
          tables w1 !! other = tables w !! other).
Proof.
  unfold rows_of.
  destruct (tables w !! tableName overrideName) as [t|] eqn:Et.
  - destruct (List.find (named "content_idx") (Table.indices t))
      as [i|] eqn:Ei.
    + rewrite (createNotesTable_indexed _ _ _ _ Et Ei).
      exists t. eexists. split; [done|]. simpl. split_and!; try done.
      by exists i.
    + rewrite (createNotesTable_unindexed _ _ _ Et Ei).
      eexists _, _. split; [done|]. simpl.
      split; [by rewrite lookup_insert_eq|]. split; [done|].
      split; [eexists; by apply find_named_new|].
      intros other Ho. by rewrite lookup_insert_ne.
  - rewrite (createNotesTable_new _ _ Et).
    eexists _, _. split; [done|]. simpl.
    split; [by rewrite lookup_insert_eq|]. split; [done|].
    split; [by eexists|].
    intros other Ho. by rewrite lookup_insert_ne.
Qed.

Section IndexNotesTool.

Variable noteDetails : string -> Result Note.t.
Variable turndown : string -> Result string.
Variable indexTime : nat.

(** The answer of the tool for a number of chunks. *)
Local Abbreviation indexed n :=
  (createTextResponse
     ("Successfully indexed " +:+ toString n +:+ " notes in "
        +:+ toString indexTime +:+ "ms.")).

(** A call of the tool when every detail is fetched. *)
Lemma indexNotesTool_run got ds w :
  Forall2 (fun t d => noteDetails t = Ok d) (default [] got) ds ->
  exists w',
    indexNotesTool (Ok got) noteDetails turndown indexTime w
    = (Ok (indexed (length (makeChunks turndown ds))), w')
    /\ rows_of "notes" w' = (rows_of "notes" w ++ makeChunks turndown ds)%list
    /\ (exists t i,
          tables w' !! "notes" = Some t
          /\ List.find (named "content_idx") (Table.indices t) = Some i)
    /\ (forall other, other <> "notes" ->
          tables w' !! other = tables w !! other).
Proof.
  intros Hds.
  destruct (createNotesTable_outcome None w)
    as (t1 & w1 & Hprov & Ht1 & Hrows & [i Hi] & Hother).
  change (tableName None) with "notes" in *.
  unfold indexNotesTool, try_catch_M, bind. rewrite Hprov.
  rewrite indexNotes_run. simpl.
  rewrite (Promise_all_fetched _ _ _ Hds). simpl.
  rewrite (add_ok _ _ _ _ Ht1). unfold ret.
  eexists. split; [reflexivity|]. unfold rows_of at 1. simpl.
  rewrite lookup_insert_eq. simpl. split; [by rewrite Hrows|].
  split; [by eexists _, i|].
  intros other Ho. rewrite lookup_insert_ne by done. by apply Hother.
Qed.

End IndexNotesTool.





(** X9: the tool [index-notes] when the fetch of a detail throws.  The
    answer is [Error indexing notes: ] followed by the message of a
    fetch that threw; the table was provisioned before the fetches, so
    it exists afterwards with an index named [content_idx], and it has
    the rows it had: no note of the run is in it. *)
Theorem index_tool_failure_keeps_provisioning
    (noteDetails : string -> Result Note.t)
    (turndown : string -> Result string) (indexTime : nat)
    (got : option (list string)) (w : Store) (t : string) (e : Error) :
  t ∈ default [] got -> noteDetails t = Throw e ->
  exists t' e' w',
    t' ∈ default [] got /\ noteDetails t' = Throw e'
    /\ indexNotesTool (Ok got) noteDetails turndown indexTime w
       = (Ok (createTextResponse ("Error indexing notes: " +:+ message e')),
          w')
    /\ w' = (createNotesTable None w).2
    /\ rows_of "notes" w' = rows_of "notes" w
    /\ exists tbl i,
         tables w' !! "notes" = Some tbl
         /\ List.find (named "content_idx") (Table.indices tbl) = Some i.
Proof.
  intros Hin Ht.
  destruct (createNotesTable_outcome None w)
    as (t1 & w1 & Hprov & Ht1 & Hrows & [i Hi] & _).
  change (tableName None) with "notes" in *.
  destruct (indexNotes_failed_fetch noteDetails turndown got "notes" w1 t e
              Hin Ht) as (t' & e' & Hin' & Ht' & Hrun).
  exists t', e', w1. split; [done|]. split; [done|].
  unfold indexNotesTool, try_catch_M, bind. rewrite Hprov, Hrun. simpl.
  split; [done|]. split; [done|].
  split; [unfold rows_of at 1; by rewrite Ht1|]. by exists t1, i.
Qed.

Lemma index_tool_failure_keeps_provisioning_witness :
  "Broken" ∈ default [] (Some ["A"; "Broken"; "B"])
  /\ Examples.details "Broken" = Throw (mkError "boom")
  /\ exists t' e' w',
       t' ∈ default [] (Some ["A"; "Broken"; "B"])
       /\ Examples.details t' = Throw e'
       /\ indexNotesTool (Ok (Some ["A"; "Broken"; "B"])) Examples.details
            Examples.normalizer 7 Examples.fresh
          = (Ok (createTextResponse
                   ("Error indexing notes: " +:+ message e')), w')
       /\ w' = (createNotesTable None Examples.fresh).2
       /\ rows_of "notes" w' = rows_of "notes" Examples.fresh
       /\ exists tbl i,
            tables w' !! "notes" = Some tbl
            /\ List.find (named "content_idx") (Table.indices tbl) = Some i.
Proof.
  assert (Hin : "Broken" ∈ default [] (Some ["A"; "Broken"; "B"]))
    by (right; left).
  split; [exact Hin|]. split; [reflexivity|].
  exact (index_tool_failure_keeps_provisioning Examples.details
           Examples.normalizer 7 (Some ["A"; "Broken"; "B"]) Examples.fresh
           "Broken" (mkError "boom") Hin eq_refl).
Defined.

(** X10: within one run of [indexNotes] in which every detail is
    fetched, the ids of the chunks handed to the table are pairwise
    distinct. *)
Theorem chunk_ids_distinct_within_a_run
    (noteDetails : string -> Result Note.t)
    (turndown : string -> Result string)
    (got : option (list string)) (table : string) (w : Store) :
  (forall t, t ∈ default [] got -> exists d, noteDetails t = Ok d) ->
  exists chunks,
    calls (indexNotes (Ok got) noteDetails turndown table w).2
    = (calls w ++ [Add table chunks])%list
    /\ NoDup (Chunk.id <$> chunks).
Proof.
  intros Hall.
  destruct (indexNotes_completed noteDetails turndown got table w Hall)
    as (ds & Hds & Hrun).
  exists (makeChunks turndown ds). split; [|apply makeChunks_ids_NoDup].
  rewrite Hrun. pose proof (add_calls table (makeChunks turndown ds) w) as Hc.
  by destruct (add table _ w) as [[[]|e] w'].
Qed.

Lemma chunk_ids_distinct_within_a_run_witness :
  (forall t, t ∈ default [] (Some ["A"; "Gone"; "B"]) ->
     exists d, Examples.details t = Ok d)
  /\ exists chunks,
       calls (indexNotes (Ok (Some ["A"; "Gone"; "B"])) Examples.details
                Examples.normalizer "notes" Examples.ready).2
       = (calls Examples.ready ++ [Add "notes" chunks])%list
       /\ NoDup (Chunk.id <$> chunks).
Proof.
  split; [exact details_fetched|].
  exact (chunk_ids_distinct_within_a_run Examples.details Examples.normalizer
           (Some ["A"; "Gone"; "B"]) "notes" Examples.ready details_fetched).
Defined.

(** ** The tools that read *)

(** X11: a listing of the titles that is missing.  The tool
    [list-notes] answers an error, the [TypeError] of reading the length
    of the listing, while the tool [index-notes] takes the same listing
    for an empty one and answers that it indexed 0 notes, the table
    keeping its rows. *)
Theorem missing_listing_list_tool_fails_index_tool_succeeds
    (noteDetails : string -> Result Note.t)
    (turndown : string -> Result string)
    (typeError : string -> Error) (indexTime : nat) (w : Store) :
  listNotesTool (Ok None) typeError w
  = (Ok (createTextResponse
           ("Error listing notes: " +:+ message (typeError "notes.length"))),
     w)
  /\ exists w',
       indexNotesTool (Ok None) noteDetails turndown indexTime w
       = (Ok (createTextResponse
                ("Successfully indexed 0 notes in " +:+ toString indexTime
                   +:+ "ms.")), w')
       /\ rows_of "notes" w' = rows_of "notes" w.
Proof.
  split; [reflexivity|].
  destruct (indexNotesTool_run noteDetails turndown indexTime None [] w)
    as (w' & Hrun & Hrows & _); [constructor|].
  exists w'. split; [exact Hrun|]. by rewrite Hrows, app_nil_r.
Qed.

Section GetNoteTool.

Variable noteDetails : string -> Result Note.t.
Variable turndown : string -> Result string.
Variable zodError : string -> option (gmap string JsValue) -> Error.

(** The tool reads: it leaves the store as it was. *)
Lemma getNoteTool_reads parameters w :
  (getNoteTool noteDetails turndown zodError parameters w).2 = w.
Proof.
  unfold getNoteTool, try_catch_M, bind, lift, ret, getNoteDetailsByTitle,
    async.
  destruct (parse_field _ _ _) as [title|e]; simpl; [|done].
  destruct (noteDetails title) as [note|e]; simpl; [|done].
  destruct (truthy (Note.title note)); simpl; [|done].
  by destruct (turndown _).
Qed.

End GetNoteTool.

(** X12: a note on whose content the normalizer throws.  The tool
    [get-note] answers [Error getting note: ] followed by the message
    of the normalizer and shows nothing of the note, while indexing
    keeps the same note, with the content it was fetched with. *)
Theorem get_note_reports_what_indexing_absorbs
    (noteDetails : string -> Result Note.t)
    (turndown : string -> Result string)
    (zodError : string -> option (gmap string JsValue) -> Error)
    (o : gmap string JsValue) (title : string) (note : Note.t) (e : Error)
    (w : Store) :
  o !! "title" = Some (JsString title) ->
  noteDetails title = Ok note ->
  truthy (Note.title note) = true ->
  turndown (or_string (Note.content note) EmptyString) = Throw e ->
  getNoteTool noteDetails turndown zodError (Some o) w
  = (Ok (createTextResponse ("Error getting note: " +:+ message e)), w)
  /\ makeChunks turndown [note] = [toChunk 0 note].
Proof.
  intros Ho Hnote Htitle Hturn. split.
  - unfold getNoteTool, try_catch_M, bind, lift, ret, getNoteDetailsByTitle,
      async, parse_field.
    rewrite Ho. simpl. rewrite Hnote. simpl. rewrite Htitle. simpl.
    by rewrite Hturn.
  - unfold makeChunks. simpl. rewrite Htitle. simpl.
    unfold normalizeNode. by rewrite Hturn.
Qed.

Lemma get_note_reports_what_indexing_absorbs_witness :
  ({[ "title" := JsString "B" ]} : gmap string JsValue) !! "title"
  = Some (JsString "B")
  /\ getNoteTool Examples.details Examples.normalizer Fixtures.zodError
       (Some {[ "title" := JsString "B" ]}) Examples.fresh
     = (Ok (createTextResponse ("Error getting note: " +:+ "unsupported")),
        Examples.fresh)
  /\ makeChunks Examples.normalizer [Examples.note "B" "<p>B</p>"]
     = [toChunk 0 (Examples.note "B" "<p>B</p>")].
Proof.
  split; [reflexivity|].
  exact (get_note_reports_what_indexing_absorbs Examples.details
           Examples.normalizer Fixtures.zodError
           {[ "title" := JsString "B" ]} "B" (Examples.note "B" "<p>B</p>")
           (mkError "unsupported") Examples.fresh
           eq_refl eq_refl eq_refl eq_refl).
Defined.

(** X13: the tool [get-note] only reads: whatever the parameters and
    whatever the Document Source and the normalizer do, the store is
    left as it was.  For a title whose detail has no title, it answers
    that the note was not found, and indexing skips that detail. *)
Theorem get_note_reads_and_reports_not_found
    (noteDetails : string -> Result Note.t)
    (turndown : string -> Result string)
    (zodError : string -> option (gmap string JsValue) -> Error)
    (parameters : option (gmap string JsValue)) (w : Store) :
  (getNoteTool noteDetails turndown zodError parameters w).2 = w
  /\ forall o title note,
       parameters = Some o ->
       o !! "title" = Some (JsString title) ->
       noteDetails title = Ok note ->
       truthy (Note.title note) = false ->
       (getNoteTool noteDetails turndown zodError parameters w).1
       = Ok (createTextResponse
               ("Note with title " +:+ dquote +:+ title +:+ dquote
                  +:+ " not found."))
       /\ makeChunks turndown [note] = [].
Proof.
  split; [apply getNoteTool_reads|].
  intros o title note -> Ho Hnote Htitle. split.
  - unfold getNoteTool, try_catch_M, bind, lift, ret, getNoteDetailsByTitle,
      async, parse_field.
    rewrite Ho. simpl. rewrite Hnote. simpl. by rewrite Htitle.
  - unfold makeChunks. simpl. by rewrite Htitle.
Qed.

Lemma get_note_reads_and_reports_not_found_witness :
  (getNoteTool Examples.details Examples.normalizer Fixtures.zodError
     (Some {[ "title" := JsString "Gone" ]}) Examples.fresh).1
  = Ok (createTextResponse
          ("Note with title " +:+ dquote +:+ "Gone" +:+ dquote
             +:+ " not found."))
  /\ makeChunks Examples.normalizer [Note.empty] = [].
Proof.
  exact (proj2 (get_note_reads_and_reports_not_found Examples.details
                  Examples.normalizer Fixtures.zodError
                  (Some {[ "title" := JsString "Gone" ]}) Examples.fresh)
           {[ "title" := JsString "Gone" ]} "Gone" Note.empty
           eq_refl eq_refl eq_refl eq_refl).
Defined.



(** X15: the tool [create-note] never touches the store, so a note
    that it creates is in no table until the notes are indexed again.
    Without parameters it answers a fixed message; with a title that is
    not a string it answers the failure of [createNote], whose message
    is prefixed twice; and when the script ran and its answer says
    success, it answers that the note of that title was created. *)
Theorem create_note_tool_leaves_the_store
    (runJxa : string -> Result string)
    (JSON_parse : string -> Result CreateResult.t)
    (typeError : string -> Error)
    (parameters : option (gmap string JsValue)) (w : Store) :
  (createNoteTool runJxa JSON_parse typeError parameters w).2 = w
  /\ (parameters = None ->
      (createNoteTool runJxa JSON_parse typeError parameters w).1
      = Ok (createTextResponse
              "Failed to create note. Please check your Apple Notes configuration."))
  /\ (forall o,
        parameters = Some o ->
        (forall s, o !! "title" <> Some (JsString s)) ->
        (createNoteTool runJxa JSON_parse typeError parameters w).1
        = Ok (createTextResponse
                ("Failed to create note. Failed to create note: "
                   +:+ message (typeError "title"))))
  /\ (forall o title content answer r,
        parameters = Some o ->
        o !! "title" = Some (JsString title) ->
        o !! "content" = Some (JsString content) ->
        runJxa (createNoteScript title content) = Ok answer ->
        JSON_parse answer = Ok r ->
        CreateResult.success r = true ->
        (createNoteTool runJxa JSON_parse typeError parameters w).1
        = Ok (createTextResponse
                ("Created note " +:+ dquote +:+ title +:+ dquote
                   +:+ " successfully."))).
Proof.
  split_and!.
  - unfold createNoteTool, try_catch_M, bind, lift, ret.
    destruct parameters as [o|]; simpl; [|done].
    destruct (createNote _ _ _ _ _) as [r|e]; simpl; [|done].
    by destruct (CreateResult.success r).
  - by intros ->.
  - intros o -> Hno.
    unfold createNoteTool, try_catch_M, bind, lift, ret, createNote, as_string.
    simpl. destruct (o !! "title") as [[s| | |]|] eqn:Et; try done.
    by destruct (Hno s).
  - intros o title content answer r -> Ht Hc Hrun Hparse Hsucc.
    unfold createNoteTool, try_catch_M, bind, lift, ret, createNote, as_string.
    simpl. rewrite Ht, Hc. simpl. rewrite Hrun. simpl. rewrite Hparse. simpl.
    by rewrite Hsucc.
Qed.

Lemma create_note_tool_leaves_the_store_witness :
  (createNoteTool Fixtures.runJxa Fixtures.JSON_parse Fixtures.typeError
     (Some {[ "title" := JsNumber 3 ]}) Examples.ready).1
  = Ok (createTextResponse
          ("Failed to create note. Failed to create note: "
             +:+ message (Fixtures.typeError "title"))).
Proof.
  apply (proj1 (proj2 (proj2 (create_note_tool_leaves_the_store
                                 Fixtures.runJxa Fixtures.JSON_parse
                                 Fixtures.typeError
                                 (Some {[ "title" := JsNumber 3 ]})
                                 Examples.ready)))
           {[ "title" := JsNumber 3 ]} eq_refl).
  intros s. rewrite lookup_singleton_eq. discriminate.
Defined.

Lemma callTool_answers_every_request_witness :
  exists r w',
    Fixtures.callTool ["A"] (Fixtures.request "drop-notes" []) Examples.ready
    = (Ok r, w')
    /\ r = createTextResponse ("Unknown tool: " +:+ "drop-notes")
    /\ w' = Examples.ready.
Proof.
  destruct (callTool_answers_every_request (Ok (Some ["A"])) Examples.details
              Examples.normalizer Fixtures.vectorSearch Fixtures.search
              Fixtures.runJxa Fixtures.JSON_parse Fixtures.typeError
              Fixtures.zodError 7 (Fixtures.request "drop-notes" [])
              Examples.ready) as (r & w' & Hrun & _ & _ & Hun).
  exists r, w'. split; [exact Hrun|]. apply Hun.
  intros n [= <-] Hin. apply list_elem_of_In in Hin. simpl in Hin.
  repeat (destruct Hin as [Hin|Hin]; [discriminate Hin|]). exact Hin.
Defined.

(** ** More on the hybrid search merge *)

Lemma first_occurrences_length l : length (first_occurrences l) <= length l.
Proof.
  induction l as [|t l IH]; simpl; [done|].
  pose proof (filter_length_le (fun u => negb (String.eqb u t))
                (first_occurrences l)). lia.
Qed.

Lemma map_set_fresh {V} k (v : V) (m : JsMap V) :
  k ∉ m.*1 -> map_set k v m = (m ++ [(k, v)])%list.
Proof.
  induction m as [|[k' v'] m IH]; csimpl; [done|].
  intros Hnin. apply not_elem_of_cons in Hnin as [Hne Hnin].
  destruct (String.eqb_spec k' k) as [->|_]; [done|]. by rewrite IH.
Qed.

Lemma new_Map_distinct (l : list Hit.t) :
  NoDup (Hit.title <$> l) ->
  new_Map (map titled_entry l) = map titled_entry l.
Proof.
  induction l as [|x l IH] using rev_ind; [done|].
  rewrite fmap_app. csimpl. intros Hnd.
  apply NoDup_app in Hnd as (Hnd & Hdisj & _).
  rewrite map_app. simpl. unfold titled_entry at 2 4.
  rewrite new_Map_snoc, IH by done. apply map_set_fresh.
  intros Hin. apply (Hdisj (Hit.title x)); [|by left].
  apply list_elem_of_fmap in Hin as ([k r] & -> & Hin).
  apply list_elem_of_In, in_map_iff in Hin as (y & [= <- <-] & Hy).
  apply list_elem_of_fmap. exists y. split; [done|by apply list_elem_of_In].
Qed.

Lemma uniqueResults_distinct (l : list Hit.t) :
  NoDup (Hit.title <$> l) -> uniqueResults l = l.
Proof.
  intros Hnd. unfold uniqueResults, values. rewrite new_Map_distinct by done.
  rewrite map_map. simpl. apply map_id.
Qed.

Lemma uniqueResults_NoDup (l : list Hit.t) :
  NoDup (Hit.title <$> uniqueResults l).
Proof.
  unfold uniqueResults. rewrite values_titles; [apply new_Map_NoDup|].
  intros k r H. by apply new_Map_last in H as [? _].
Qed.

(** X16: the deduplicated hits have pairwise distinct titles and lose
    no title of the hits; they are never more than the hits;
    deduplicating hits whose titles are already distinct, and so
    deduplicating twice, changes nothing. *)
Theorem dedup_yields_distinct_titles (allResults : list Hit.t) :
  NoDup (Hit.title <$> uniqueResults allResults)
  /\ (forall t, t ∈ Hit.title <$> uniqueResults allResults
                <-> t ∈ Hit.title <$> allResults)
  /\ length (uniqueResults allResults) <= length allResults
  /\ (NoDup (Hit.title <$> allResults) ->
      uniqueResults allResults = allResults)
  /\ uniqueResults (uniqueResults allResults) = uniqueResults allResults.
Proof.
  split_and!.
  - apply uniqueResults_NoDup.
  - intros t. rewrite uniqueResults_titles. apply first_occurrences_elem.
  - rewrite <- (length_fmap Hit.title (uniqueResults allResults)),
      uniqueResults_titles, <- (length_fmap Hit.title allResults).
    apply first_occurrences_length.
  - apply uniqueResults_distinct.
  - apply uniqueResults_distinct, uniqueResults_NoDup.
Qed.

Lemma dedup_yields_distinct_titles_witness :
  NoDup (Hit.title <$> [Examples.hit "A" "a"; Examples.hit "B" "b"])
  /\ uniqueResults [Examples.hit "A" "a"; Examples.hit "B" "b"]
     = [Examples.hit "A" "a"; Examples.hit "B" "b"].
Proof.
  assert (H : NoDup (Hit.title <$> [Examples.hit "A" "a"; Examples.hit "B" "b"])).
  { apply NoDup_cons. split; [|apply NoDup_singleton].
    intros Hin. apply list_elem_of_singleton in Hin. discriminate Hin. }
  split; [exact H|].
  exact (proj1 (proj2 (proj2 (proj2 (dedup_yields_distinct_titles
           [Examples.hit "A" "a"; Examples.hit "B" "b"])))) H).
Defined.

(** X17: the length of a snippet.  A content of at most 300 characters
    gives a snippet of its length, and a longer one a snippet of 303
    characters; so no snippet is longer than 303 characters, and the
    snippet of a content of 301 or 302 characters is longer than the
    content. *)
Theorem snippet_length (content : string) :
  (String.length content <= 300 ->
   String.length (snippet content) = String.length content)
  /\ (300 < String.length content -> String.length (snippet content) = 303)
  /\ String.length (snippet content) <= 303
  /\ (300 < String.length content < 303 ->
      String.length content < String.length (snippet content)).
Proof.
  assert (Hshort : String.length content <= 300 ->
                   String.length (snippet content) = String.length content).
  { intros H. unfold snippet.
    destruct (Nat.ltb_spec 300 (String.length content)); [lia|done]. }
  assert (Hlong : 300 < String.length content ->
                  String.length (snippet content) = 303).
  { intros H. unfold snippet.
    destruct (Nat.ltb_spec 300 (String.length content)); [|lia].
    destruct (substring_prefix 300 content) as (tail & _ & Hlen); [lia|].
    by rewrite append_length, Hlen. }
  split_and!; [done|done| |].
  - destruct (decide (String.length content <= 300)) as [H|H].
    + rewrite Hshort by done. lia.
    + rewrite Hlong by lia. lia.
  - intros [H1 H2]. rewrite Hlong by done. lia.
Qed.

Lemma snippet_length_witness :
  String.length (snippet "short") = String.length "short".
Proof.
  apply (proj1 (snippet_length "short")). simpl. lia.
Defined.

Section SearchLimits.

Variable vectorSearch : string -> Z -> Result (list Hit.t).
Variable search : string -> string -> Z -> Result (list Hit.t).

(** X18: a limit that is not positive.  With the limit 0 the report is
    the header, which counts all the deduplicated hits, and no entry.
    With a negative limit the report does not show 0 entries or fewer:
    it shows the deduplicated hits but the last ones, as many of them
    left out as the limit says. *)
Theorem search_with_limit_zero_or_negative
    (query : string) (limit : Z) (semantic lexical : list Hit.t) :
  let unique := uniqueResults (semantic ++ lexical) in
  let header :=
    "Found " +:+ toString (length unique) +:+ " notes matching "
      +:+ dquote +:+ query +:+ dquote +:+ ":" +:+ nl +:+ nl in
  vectorSearch query limit = Ok semantic ->
  search "content" query limit = Ok lexical ->
  (limit = 0%Z ->
   searchAndCombineResults vectorSearch search query (Some limit)
   = Ok header)
  /\ ((limit < 0)%Z ->
      searchAndCombineResults vectorSearch search query (Some limit)
      = Ok (header
              +:+ processResults
                    (take (length unique - Z.to_nat (- limit)) unique) 1)).
Proof.
  intros unique header Hsem Hlex. split.
  - intros ->. unfold searchAndCombineResults. simpl. rewrite Hsem, Hlex.
    fold unique. change 0%Z with (Z.of_nat 0). rewrite slice_take. simpl.
    subst header. by rewrite !append_nil_r.
  - intros Hneg. unfold searchAndCombineResults. simpl. rewrite Hsem, Hlex.
    fold unique. subst header. rewrite <- !append_assoc. do 2 f_equal.
    unfold slice, slice_index. simpl.
    destruct (Z.ltb_spec limit 0) as [_|?]; [|lia].
    replace (Z.to_nat (Z.min 0 (Z.of_nat (length unique)))) with 0 by lia.
    rewrite drop_0, Nat.sub_0_r.
    replace (Z.to_nat ((Z.of_nat (length unique) + limit) `max` 0))
      with (length unique - Z.to_nat (- limit)) by lia.
    done.
Qed.

End SearchLimits.

Lemma search_with_limit_zero_or_negative_witness :
  let vectorSearch := fun (_ : string) (_ : Z) =>
    Ok [Examples.hit "A" "a"; Examples.hit "B" "b"] in
  let search := fun (_ _ : string) (_ : Z) => Ok [Examples.hit "C" "c"] in
  searchAndCombineResults vectorSearch search "q" (Some (-1)%Z)
  = Ok (("Found " +:+ toString 3 +:+ " notes matching " +:+ dquote +:+ "q"
           +:+ dquote +:+ ":" +:+ nl +:+ nl)
          +:+ processResults [Examples.hit "A" "a"; Examples.hit "B" "b"] 1).
Proof.
  intros vectorSearch search.
  exact (proj2 (search_with_limit_zero_or_negative vectorSearch search "q"
                  (-1)%Z [Examples.hit "A" "a"; Examples.hit "B" "b"]
                  [Examples.hit "C" "c"] eq_refl eq_refl) eq_refl).
Defined.

(** ** More on the provisioner *)

(** X19: the name of the table.  An override that is the empty string
    is no override: the call provisions [notes].  With any other
    override the call provisions the table of that name and no other:
    in particular the table [notes] is as it was. *)
Theorem provisioner_table_name (overrideName : option string) (w : Store) :
  createNotesTable (Some EmptyString) w = createNotesTable None w
  /\ forall n,
       overrideName = Some n -> n <> EmptyString ->
       (createNotesTable overrideName w).1 = Ok n
       /\ is_Some (tables (createNotesTable overrideName w).2 !! n)
       /\ forall other, other <> n ->
            tables (createNotesTable overrideName w).2 !! other
            = tables w !! other.
Proof.
  split; [reflexivity|].
  intros n -> Hn.
  destruct (createNotesTable_outcome (Some n) w)
    as (t1 & w1 & Hprov & Ht1 & _ & _ & Hother).
  assert (Hname : tableName (Some n) = n).
  { unfold tableName, or_string.
    destruct (String.eqb_spec n EmptyString); [done|done]. }
  rewrite Hname in *. rewrite Hprov. simpl.
  split; [done|]. split; [by eexists|]. done.
Qed.

Lemma provisioner_table_name_witness :
  (createNotesTable (Some "archive") Examples.ready).1 = Ok "archive"
  /\ is_Some (tables (createNotesTable (Some "archive") Examples.ready).2
                !! "archive")
  /\ forall other, other <> "archive" ->
       tables (createNotesTable (Some "archive") Examples.ready).2 !! other
       = tables Examples.ready !! other.
Proof.
  apply (proj2 (provisioner_table_name (Some "archive") Examples.ready)
           "archive" eq_refl).
  discriminate.
Defined.
